(** * The lookup route: rate limiter, lookup orchestrator and photo proxy

    A shallow embedding of [src/app/api/lookup/route.ts].  The two exported
    handlers, [POST] and [GET], are written in a small state-and-exception
    monad over the process-wide rate-limiter registry, the wall clock and
    the log of outbound [fetch] calls; what the network answers is an
    oracle of the environment. *)

From Stdlib Require Import ZArith QArith String Ascii List Lia.
From stdpp Require Import base option list gmap strings pretty.
Import ListNotations.

Local Open Scope string_scope.
Local Open Scope list_scope.
Local Open Scope Z_scope.

(** ** JavaScript values

    Everything the handlers read from a request body or from an upstream
    answer is the result of [JSON.parse], plus [undefined] for an absent
    property. *)

(** A number is an IEEE double.  The handlers never do arithmetic on a
    number that comes from JSON: they test it (truthiness, integrality,
    order) and pass it through.  A finite double is the rational it
    denotes (both zeros are [0]); an overflowing literal parses to an
    infinity.  [JSON.parse] never yields NaN. *)
Inductive number :=
  | Finite (q : Q)
  | Infinite (negative : bool).

#[warnings="-register-all"]
Inductive value :=
  | VUndefined
  | VNull
  | VBool (b : bool)
  | VNum (x : number)
  | VStr (s : string)
  | VArr (elems : list value)
  | VObj (props : list (string * value)).

(** Own properties of a parsed object, first binding of the key. *)
Fixpoint assoc (k : string) (props : list (string * value)) : value :=
  match props with
  | [] => VUndefined
  | (k', v) :: rest => if String.eqb k k' then v else assoc k rest
  end.

(** The outcome of evaluating an expression that may raise. *)
Record JsError := { message : option string }.

Inductive completion (A : Type) :=
  | Normal (a : A)
  | Throw (e : JsError).
Arguments Normal {A} a.
Arguments Throw {A} e.

Definition TypeError (msg : string) : JsError := {| message := Some msg |}.

(** [v.k]: reading a property of [null] or [undefined] raises a TypeError;
    on a primitive or an array none of the keys the handlers read exists. *)
Definition get_prop (v : value) (k : string) : completion value :=
  match v with
  | VUndefined | VNull => Throw (TypeError "Cannot read properties of null")
  | VObj props => Normal (assoc k props)
  | _ => Normal VUndefined
  end.

(** [v?.k] *)
Definition get_opt (v : value) (k : string) : value :=
  match v with
  | VObj props => assoc k props
  | _ => VUndefined
  end.

(** [v ?? d] *)
Definition nullish (v d : value) : value :=
  match v with
  | VUndefined | VNull => d
  | _ => v
  end.

Definition number_is_zero (x : number) : bool :=
  match x with
  | Finite q => Z.eqb (Qnum q) 0
  | Infinite _ => false
  end.

(** ToBoolean *)
Definition truthy (v : value) : bool :=
  match v with
  | VUndefined | VNull => false
  | VBool b => b
  | VNum x => negb (number_is_zero x)
  | VStr s => negb (String.eqb s "")
  | VArr _ | VObj _ => true
  end.

(** [Number.isInteger], with the integer. *)
Definition number_integer (x : number) : option Z :=
  match x with
  | Finite q =>
      if Z.eqb (Qnum q mod Zpos (Qden q)) 0
      then Some (Qnum q / Zpos (Qden q)) else None
  | Infinite _ => None
  end.

(** ** Strings

    A character stands for one code unit below 256.  Within that range
    the white space and line terminators that [String.prototype.trim]
    strips are TAB, LF, VT, FF, CR, SP and NBSP. *)

Definition is_white (a : ascii) : bool :=
  let n := nat_of_ascii a in
  ((9 <=? n) && (n <=? 13) || (n =? 32) || (n =? 160))%nat.

Fixpoint trimStart (s : string) : string :=
  match s with
  | String a rest => if is_white a then trimStart rest else s
  | EmptyString => EmptyString
  end.

Fixpoint trimEnd (s : string) : string :=
  match s with
  | String a rest =>
      match trimEnd rest with
      | EmptyString => if is_white a then EmptyString else String a EmptyString
      | rest' => String a rest'
      end
  | EmptyString => EmptyString
  end.

Definition trim (s : string) : string := trimEnd (trimStart s).

(** [s.split(',')[0]] *)
Fixpoint split_comma_0 (s : string) : string :=
  match s with
  | String a rest =>
      if Ascii.eqb a "," then EmptyString else String a (split_comma_0 rest)
  | EmptyString => EmptyString
  end.

(** [s.startsWith(p)] *)
Definition startsWith (s p : string) : bool := String.prefix p s.

(** [s.includes(p)] *)
Fixpoint includes (s p : string) : bool :=
  String.prefix p s ||
  match s with
  | String _ rest => includes rest p
  | EmptyString => false
  end.

(** [`${n}`] for an integer [n] *)
Definition decimal (n : Z) : string := pretty n.

(** A nullable string ([string | null], [string | undefined]) in a
    condition: [null], [undefined] and the empty string are falsy. *)
Definition truthy_str (s : option string) : bool :=
  match s with
  | Some s => negb (String.eqb s "")
  | None => false
  end.

(** ** The platform: requests, responses, clock and network *)

(** What [fetch] resolves to.  Headers are the two the handlers read;
    each way of reading the body may reject. *)
Record Response := {
  status : Z;
  content_type : option string;      (* headers.get('content-type') *)
  location : option string;          (* headers.get('location') *)
  text : completion string;          (* resp.text() *)
  json : completion value;           (* resp.json() *)
  arrayBuffer : completion (list Byte.byte);  (* resp.arrayBuffer() *)
}.

(** [resp.ok] *)
Definition ok (resp : Response) : bool :=
  (200 <=? status resp) && (status resp <=? 299).

(** An outbound [fetch], recorded by the parts the handler puts into it;
    how [URL] serialises them is the platform's. *)
Inductive FetchCall :=
  | GeocodeCall (address : string) (key : option string)
  | PlaceDetailsCall (placeId : value) (key : option string) (fieldMask : string)
  | PhotoMediaCall (photoName maxWidthPx : string) (maxHeightPx : option string)
      (key : option string)
  | UrlCall (input : value).

(** The inbound request, by what the handlers read of it. *)
Record NextRequest := {
  x_forwarded_for : option string;       (* req.headers.get('x-forwarded-for') *)
  ip : option string;                    (* (req as any).ip *)
  req_json : completion value;           (* req.json() *)
  searchParams : list (string * string); (* new URL(req.url).searchParams *)
}.

(** [searchParams.get(name)]: the first value of that name, or null. *)
Fixpoint searchParams_get (sp : list (string * string)) (name : string)
  : option string :=
  match sp with
  | [] => None
  | (k, v) :: rest => if String.eqb k name then Some v else searchParams_get rest name
  end.

Record Env := {
  GOOGLE_KEY : option string;     (* process.env.GOOGLE_MAPS_API_KEY *)
  clock : nat -> Z;               (* the n-th reading of Date.now() *)
  network : nat -> FetchCall -> completion Response;
                                  (* the answer to the n-th outbound call *)
}.

Record State := {
  buckets : gmap string (list Z); (* the module-level Map *)
  clock_reads : nat;
  calls : list FetchCall;
}.

(** ** The monad of the handlers *)

Definition M (A : Type) : Type := Env -> State -> completion A * State.

Definition ret {A} (a : A) : M A := fun _ st => (Normal a, st).

Definition bind {A B} (c : M A) (k : A -> M B) : M B :=
  fun env st =>
    match c env st with
    | (Normal a, st') => k a env st'
    | (Throw e, st') => (Throw e, st')
    end.

Declare Scope handler_scope.
Delimit Scope handler_scope with handler.
Bind Scope handler_scope with M.
Notation "x <- c ;; k" := (bind c (fun x => k))
  (at level 100, c at next level, right associativity) : handler_scope.
Local Open Scope handler_scope.

Definition throw {A} (e : JsError) : M A := fun _ st => (Throw e, st).

(** [await p] for a promise already settled *)
Definition await {A} (c : completion A) : M A := fun _ st => (c, st).

(** [try { c } catch (e) { h e }] *)
Definition try_catch {A} (c : M A) (h : JsError -> M A) : M A :=
  fun env st =>
    match c env st with
    | (Normal a, st') => (Normal a, st')
    | (Throw e, st') => h e env st'
    end.

(** [p.catch(() => d)] *)
Definition catch_default {A} (c : completion A) (d : A) : A :=
  match c with
  | Normal a => a
  | Throw _ => d
  end.

Definition env_key : M (option string) := fun env st => (Normal (GOOGLE_KEY env), st).

Definition Date_now : M Z :=
  fun env st =>
    (Normal (clock env (clock_reads st)),
     {| buckets := buckets st; clock_reads := S (clock_reads st); calls := calls st |}).

Definition fetch (call : FetchCall) : M Response :=
  fun env st =>
    (network env (length (calls st)) call,
     {| buckets := buckets st; clock_reads := clock_reads st;
        calls := calls st ++ [call] |}).

Definition buckets_get (k : string) : M (option (list Z)) :=
  fun _ st => (Normal (buckets st !! k), st).

Definition buckets_set (k : string) (v : list Z) : M unit :=
  fun _ st =>
    (Normal tt,
     {| buckets := <[k := v]> (buckets st); clock_reads := clock_reads st;
        calls := calls st |}).

(** ** Rate limiter *)

Definition PLACES_V1_BASE : string := "https://places.googleapis.com/v1".

Definition WINDOW_MS : Z := 60000.
Definition MAX_REQUESTS : nat := 30.

Definition getIp (req : NextRequest) : string :=
  if truthy_str (x_forwarded_for req)
  then trim (split_comma_0 (default "" (x_forwarded_for req)))
  else default "unknown" (ip req).

Definition rateLimit (req : NextRequest) : M (option string) :=
  let ip := getIp req in
  now <- Date_now ;;
  stored <- buckets_get ip ;;
  let arr := default [] stored in
  let recent := filter (fun t => now - t < WINDOW_MS) arr ++ [now] in
  _ <- buckets_set ip recent ;;
  if (MAX_REQUESTS <? length recent)%nat   (* recent.length > MAX_REQUESTS *)
  then ret (Some "Rate limit exceeded. Please try again shortly.")
  else ret None.

(** ** Request validation

    [BodySchema] is a zod object schema: the body must be an object;
    [address] a string, trimmed and then of length at least 1;
    [selectedIndex], when present, a number that is an integer and at
    least 0.  Unknown keys are dropped.  The error detail that zod builds
    for a rejected body is not modelled. *)
Definition BodySchema_safeParse (body : value) : option (string * option Z) :=
  match body with
  | VObj props =>
      match assoc "address" props with
      | VStr a =>
          let address := trim a in
          if (1 <=? String.length address)%nat then
            match assoc "selectedIndex" props with
            | VUndefined => Some (address, None)
            | VNum x =>
                match number_integer x with
                | Some i => if 0 <=? i then Some (address, Some i) else None
                | None => None
                end
            | _ => None
            end
          else None
      | _ => None
      end
  | _ => None
  end.

Definition PLACE_FIELD_MASK : string :=
  String.concat ","
    [ "id"; "displayName"; "formattedAddress"; "addressComponents"; "location";
      "viewport"; "types"; "primaryType"; "primaryTypeDisplayName";
      "businessStatus"; "priceLevel"; "priceRange"; "rating"; "userRatingCount";
      "nationalPhoneNumber"; "internationalPhoneNumber"; "websiteUri";
      "googleMapsUri"; "regularOpeningHours"; "utcOffsetMinutes"; "takeout";
      "delivery"; "dineIn"; "curbsidePickup"; "reservable"; "servesBreakfast";
      "servesLunch"; "servesDinner"; "servesBrunch"; "servesBeer"; "servesWine";
      "servesCocktails"; "servesCoffee"; "servesDessert"; "servesVegetarianFood";
      "outdoorSeating"; "liveMusic"; "menuForChildren"; "goodForChildren";
      "goodForGroups"; "goodForWatchingSports"; "allowsDogs"; "restroom";
      "accessibilityOptions"; "paymentOptions"; "parkingOptions";
      "editorialSummary" ].

(** ** Responses of the handlers *)

Record Candidate := {
  formatted_address : value;
  place_id : value;
  lat : value;
  lng : value;
  address_components : value;
}.

Inductive Body :=
  | JsonError (error : string)             (* { error: "..." } *)
  | JsonInvalid                            (* { error: parsed.error.flatten() } *)
  | JsonLookup (query : string) (candidates : list Candidate) (selectedIndex : Z)
      (place : value) (warnings : list string) (latencyMs : option Z)
  | TextBody (s : string)
  | BufferBody (bytes : list Byte.byte).

(** Status, the headers the handler sets itself, and the body. *)
Record NextResponse := {
  res_status : Z;
  res_headers : list (string * string);
  res_body : Body;
}.

Definition NextResponse_json (body : Body) (status : Z) : NextResponse :=
  {| res_status := status; res_headers := []; res_body := body |}.

Definition NextResponse_text (s : string) (status : Z) : NextResponse :=
  {| res_status := status; res_headers := []; res_body := TextBody s |}.

Definition CACHE_CONTROL : string := "public, max-age=86400".

(** [new NextResponse(Buffer.from(arrayBuffer), { status: 200, headers })] *)
Definition NextResponse_image (bytes : list Byte.byte) (contentType : string)
  : NextResponse :=
  {| res_status := 200;
     res_headers := [("content-type", contentType); ("cache-control", CACHE_CONTROL)];
     res_body := BufferBody bytes |}.

Fixpoint header_get (hs : list (string * string)) (name : string) : option string :=
  match hs with
  | [] => None
  | (k, v) :: rest => if String.eqb k name then Some v else header_get rest name
  end.

(** ** Place enricher *)

Definition Error (msg : string) : JsError := {| message := Some msg |}.

Definition fetchPlaceDetailsNew (placeId : value) : M value :=
  key <- env_key ;;
  resp <- fetch (PlaceDetailsCall placeId key PLACE_FIELD_MASK) ;;
  if negb (ok resp) then
    let text := catch_default (text resp) "" in
    throw (Error ("Places v1 details failed with status " ++ decimal (status resp)
                  ++ (if negb (String.eqb text "") then ": " ++ text else ""))%string)
  else
    await (json resp).

(** ** Lookup orchestrator *)

Definition cbind {A B} (c : completion A) (k : A -> completion B) : completion B :=
  match c with
  | Normal a => k a
  | Throw e => Throw e
  end.

(** The arrow function mapped over [geoData.results]. *)
Definition toCandidate (r : value) : completion Candidate :=
  cbind (get_prop r "formatted_address") (fun formatted_address =>
  cbind (get_prop r "place_id") (fun place_id =>
  cbind (get_prop r "geometry") (fun geometry =>
  cbind (get_prop r "geometry") (fun geometry' =>
  cbind (get_prop r "address_components") (fun address_components =>
  Normal
    {| formatted_address := formatted_address;
       place_id := nullish place_id VNull;
       lat := nullish (get_opt (get_opt geometry "location") "lat") VNull;
       lng := nullish (get_opt (get_opt geometry' "location") "lng") VNull;
       address_components := nullish address_components VNull |}))))).

(** [arr.map(f)], stopping at the first exception. *)
Fixpoint Array_map {A B} (f : A -> completion B) (arr : list A) : completion (list B) :=
  match arr with
  | [] => Normal []
  | x :: rest =>
      cbind (f x) (fun y => cbind (Array_map f rest) (fun ys => Normal (y :: ys)))
  end.

Definition Array_isArray (v : value) : bool :=
  match v with
  | VArr _ => true
  | _ => false
  end.

Definition elements (v : value) : list value :=
  match v with
  | VArr elems => elems
  | _ => []
  end.

Definition MULTIPLE_MATCHES : string := "Multiple matches found; showing best match.".
Definition NO_MATCH : string := "No match found.".

(** [typeof selectedIndex === 'number' && selectedIndex >= 0 &&
    selectedIndex < candidates.length ? selectedIndex : 0] *)
Definition select_idx (selectedIndex : option Z) (length : nat) : Z :=
  match selectedIndex with
  | Some i => if (0 <=? i) && (i <? Z.of_nat length) then i else 0
  | None => 0
  end.

(** What the first part of [POST] hands to the second. *)
Inductive Geocoded :=
  | Responded (res : NextResponse)
  | Selected (address : string) (started : Z) (warnings : list string)
      (candidates : list Candidate) (idx : Z).

(** [POST] up to the choice of [idx]: gate, configuration, validation,
    geocoding, candidates. *)
Definition geocode (req : NextRequest) : M Geocoded :=
  rl <- rateLimit req ;;
  if truthy_str rl then
    ret (Responded (NextResponse_json (JsonError (default "" rl)) 429))
  else
  key <- env_key ;;
  if negb (truthy_str key) then
    ret (Responded (NextResponse_json
           (JsonError "Server is not configured with GOOGLE_MAPS_API_KEY") 500))
  else
  match req_json req with
  | Throw _ => ret (Responded (NextResponse_json (JsonError "Invalid JSON body") 400))
  | Normal body =>
  match BodySchema_safeParse body with
  | None => ret (Responded (NextResponse_json JsonInvalid 400))
  | Some (address, selectedIndex) =>
  started <- Date_now ;;
  let warnings : list string := [] in
  geoRes <- fetch (GeocodeCall address key) ;;
  if negb (ok geoRes) then
    ret (Responded (NextResponse_json
           (JsonError ("Geocoding failed with status " ++ decimal (status geoRes))%string)
           502))
  else
  geoData <- await (json geoRes) ;;
  results <- await (get_prop geoData "results") ;;
  if negb (Array_isArray results) || (length (elements results) =? 0)%nat then
    ret (Responded (NextResponse_json
           (JsonLookup address [] 0 VNull [NO_MATCH] None) 200))
  else
  candidates <- await (Array_map toCandidate (elements results)) ;;
  let warnings :=
    if (1 <? length candidates)%nat then warnings ++ [MULTIPLE_MATCHES] else warnings in
  let idx := select_idx selectedIndex (length candidates) in
  ret (Selected address started warnings candidates idx)
  end
  end.

Definition NO_PLACE_ID : string :=
  "No place_id from geocoding; place details not available.".
Definition PLACES_NEW : string :=
  "Places details returned from Places API (New); attribute availability varies by place.".

(** [POST] from [let place = null] on: enrichment, elapsed time, payload. *)
Definition enrich (address : string) (started : Z) (warnings : list string)
    (candidates : list Candidate) (idx : Z) : M NextResponse :=
  let place := VNull in
  match candidates !! Z.to_nat idx with
  | None => throw (TypeError "Cannot read properties of undefined")
  | Some chosen =>
  r <-
    (if negb (truthy (place_id chosen)) then
       ret (place, warnings ++ [NO_PLACE_ID])
     else
       try_catch
         (place <- fetchPlaceDetailsNew (place_id chosen) ;;
          ret (place, warnings ++ [PLACES_NEW]))
         (fun e =>
            ret (place, warnings ++ [default "Place details fetch failed" (message e)]))) ;;
  now <- Date_now ;;
  let elapsed := now - started in
  ret (NextResponse_json
         (JsonLookup address candidates idx (fst r) (snd r) (Some elapsed)) 200)
  end.

Definition POST (req : NextRequest) : M NextResponse :=
  g <- geocode req ;;
  match g with
  | Responded res => ret res
  | Selected address started warnings candidates idx =>
      enrich address started warnings candidates idx
  end.

(** ** Photo proxy *)

(** [a ?? b] on nullable strings *)
Definition or_else (a b : option string) : option string :=
  match a with
  | Some _ => a
  | None => b
  end.

Definition dquote : string := String (ascii_of_nat 34) EmptyString.

Definition PHOTO_NAME_PREFIX_MESSAGE : string :=
  ("photoName must be a full Places photo resource name (starts with "
   ++ dquote ++ "places/" ++ dquote ++ ")")%string.

(** [searchParams.get('photoName') ?? searchParams.get('name') ??
    searchParams.get('photoRef')] *)
Definition photoName_param (sp : list (string * string)) : option string :=
  or_else (searchParams_get sp "photoName")
    (or_else (searchParams_get sp "name") (searchParams_get sp "photoRef")).

(** [searchParams.get('maxWidthPx') ?? searchParams.get('maxwidth') ?? '400'] *)
Definition maxWidthPx_param (sp : list (string * string)) : string :=
  default "400" (or_else (searchParams_get sp "maxWidthPx") (searchParams_get sp "maxwidth")).

(** [searchParams.get('maxHeightPx') ?? searchParams.get('maxheight')] *)
Definition maxHeightPx_param (sp : list (string * string)) : option string :=
  or_else (searchParams_get sp "maxHeightPx") (searchParams_get sp "maxheight").

(** The media call for a photo: [maxHeightPx] is set only when truthy;
    [skipHttpRedirect=true] and [redirect: 'manual'] are always set. *)
Definition photo_call (req : NextRequest) (photoName : string) (key : option string)
  : FetchCall :=
  let sp := searchParams req in
  PhotoMediaCall photoName (maxWidthPx_param sp)
    (if truthy_str (maxHeightPx_param sp) then maxHeightPx_param sp else None) key.

Definition GET (req : NextRequest) : M NextResponse :=
  rl <- rateLimit req ;;
  if truthy_str rl then ret (NextResponse_text (default "" rl) 429) else
  key <- env_key ;;
  if negb (truthy_str key) then ret (NextResponse_text "Server not configured" 500) else
  let sp := searchParams req in
  let photoName := photoName_param sp in
  let maxWidthPx := maxWidthPx_param sp in
  let maxHeightPx := maxHeightPx_param sp in
  if negb (truthy_str photoName) then ret (NextResponse_text "photoName required" 400) else
  let photoName := default "" photoName in
  if negb (startsWith photoName "places/") then
    ret (NextResponse_text PHOTO_NAME_PREFIX_MESSAGE 400)
  else
  resp <- fetch (PhotoMediaCall photoName maxWidthPx
                   (if truthy_str maxHeightPx then maxHeightPx else None) key) ;;
  if ok resp && includes (default "" (content_type resp)) "application/json" then
    let data := catch_default (json resp) VNull in
    let mediaUrl := get_opt data "photoUri" in
    if negb (truthy mediaUrl) then
      ret (NextResponse_text "Failed to resolve photo media URL" 502)
    else
    mediaResp <- fetch (UrlCall mediaUrl) ;;
    if negb (ok mediaResp) then ret (NextResponse_text "Failed to fetch photo" 502) else
    let contentType := default "image/jpeg" (content_type mediaResp) in
    arrayBuffer <- await (arrayBuffer mediaResp) ;;
    ret (NextResponse_image arrayBuffer contentType)
  else
  if (300 <=? status resp) && (status resp <? 400) then
    let loc := location resp in
    if negb (truthy_str loc) then ret (NextResponse_text "Failed to fetch photo" 502) else
    mediaResp <- fetch (UrlCall (VStr (default "" loc))) ;;
    if negb (ok mediaResp) then ret (NextResponse_text "Failed to fetch photo" 502) else
    let contentType := default "image/jpeg" (content_type mediaResp) in
    arrayBuffer <- await (arrayBuffer mediaResp) ;;
    ret (NextResponse_image arrayBuffer contentType)
  else
  if negb (ok resp) then ret (NextResponse_text "Failed to fetch photo" 502) else
  let contentType := default "image/jpeg" (content_type resp) in
  arrayBuffer <- await (arrayBuffer resp) ;;
  ret (NextResponse_image arrayBuffer contentType).

(** * Vocabulary of the properties *)

(** The process at start-up: an empty registry, no clock reading and no
    outbound call so far. *)
Definition st0 : State := {| buckets := ∅; clock_reads := 0; calls := [] |}.

(** What one call leaves in the registry for its client. *)
Definition recent_at (now : Z) (arr : list Z) : list Z :=
  filter (fun t => now - t < WINDOW_MS) arr ++ [now].

(** The state after one reading of the clock, after one outbound call,
    and after one pass through the rate limiter. *)
Definition after_clock (st : State) : State :=
  {| buckets := buckets st; clock_reads := S (clock_reads st); calls := calls st |}.

Definition after_call (call : FetchCall) (st : State) : State :=
  {| buckets := buckets st; clock_reads := clock_reads st; calls := calls st ++ [call] |}.

Definition after_gate (req : NextRequest) (env : Env) (st : State) : State :=
  {| buckets := <[getIp req := recent_at (clock env (clock_reads st))
                                 (default [] (buckets st !! getIp req))]> (buckets st);
     clock_reads := S (clock_reads st);
     calls := calls st |}.

(** The response of [POST] when geocoding finds nothing. *)
Definition EMPTY_RESULT (address : string) : NextResponse :=
  NextResponse_json (JsonLookup address [] 0 VNull [NO_MATCH] None) 200.

(** How the enrichment of [chosen] ends: the place, the warning pushed and
    the state left. *)
Inductive Enriched (env : Env) (st : State) (chosen : Candidate)
  : value -> string -> State -> Prop :=
  | Enriched_no_place_id :
      truthy (place_id chosen) = false ->
      Enriched env st chosen VNull NO_PLACE_ID st
  | Enriched_details (place : value) (st1 : State) :
      truthy (place_id chosen) = true ->
      fetchPlaceDetailsNew (place_id chosen) env st = (Normal place, st1) ->
      Enriched env st chosen place PLACES_NEW st1
  | Enriched_failed (e : JsError) (st1 : State) :
      truthy (place_id chosen) = true ->
      fetchPlaceDetailsNew (place_id chosen) env st = (Throw e, st1) ->
      Enriched env st chosen VNull (default "Place details fetch failed" (message e)) st1.

(** Every way [POST] returns 200. *)
Inductive Lookup200 (req : NextRequest) (env : Env) (st : State)
  : NextResponse -> State -> Prop :=
  | Lookup200_empty body address selectedIndex geoRes geoData results :
      req_json req = Normal body ->
      BodySchema_safeParse body = Some (address, selectedIndex) ->
      network env (length (calls st)) (GeocodeCall address (GOOGLE_KEY env)) = Normal geoRes ->
      json geoRes = Normal geoData ->
      get_prop geoData "results" = Normal results ->
      Array_isArray results = false \/ elements results = [] ->
      Lookup200 req env st (EMPTY_RESULT address)
        (after_call (GeocodeCall address (GOOGLE_KEY env)) (after_clock (after_gate req env st)))
  | Lookup200_full body address selectedIndex geoRes geoData results candidates
      chosen place warning st1 :
      req_json req = Normal body ->
      BodySchema_safeParse body = Some (address, selectedIndex) ->
      network env (length (calls st)) (GeocodeCall address (GOOGLE_KEY env)) = Normal geoRes ->
      json geoRes = Normal geoData ->
      get_prop geoData "results" = Normal (VArr results) ->
      results <> [] ->
      Array_map toCandidate results = Normal candidates ->
      candidates !! Z.to_nat (select_idx selectedIndex (length candidates)) = Some chosen ->
      Enriched env
        (after_call (GeocodeCall address (GOOGLE_KEY env)) (after_clock (after_gate req env st)))
        chosen place warning st1 ->
      Lookup200 req env st
        (NextResponse_json
           (JsonLookup address candidates (select_idx selectedIndex (length candidates))
              place
              ((if (1 <? length candidates)%nat then [MULTIPLE_MATCHES] else []) ++ [warning])
              (Some (clock env (clock_reads st1) - clock env (S (clock_reads st))))) 200)
        (after_clock st1).

(** An upstream record: a JSON object. *)
Definition is_record (v : value) : Prop :=
  match v with
  | VObj _ => True
  | _ => False
  end.

(** The index the caller put in the request body, when it is an integer. *)
Definition supplied_index (req : NextRequest) : option Z :=
  match req_json req with
  | Normal (VObj props) =>
      match assoc "selectedIndex" props with
      | VNum x => number_integer x
      | _ => None
      end
  | _ => None
  end.

(** The error messages of the platform (a rejected [fetch], an unreadable
    body) are not the text [msg]. *)
Definition platform_errors_differ_from (env : Env) (msg : string) : Prop :=
  (forall n call e, network env n call = Throw e -> message e <> Some msg) /\
  (forall n call resp e,
     network env n call = Normal resp -> json resp = Throw e -> message e <> Some msg).

(** [n] calls from one client, then one more, whose decision is returned. *)
Fixpoint rateLimit_times (req : NextRequest) (n : nat) : M (option string) :=
  match n with
  | O => rateLimit req
  | S m => _ <- rateLimit req ;; rateLimit_times req m
  end.

(** The timestamps of [ts] less than 60,000 ms before [now]. *)
Definition in_window (now : Z) (ts : list Z) : list Z :=
  filter (fun t => now - t < WINDOW_MS) ts.

(** A clock that never runs backwards. *)
Definition monotone (clock : nat -> Z) : Prop :=
  forall i j, (i <= j)%nat -> clock i <= clock j.

(** ** Sample requests and upstreams *)

Module Demo.

Definition json_response (v : value) : Response :=
  {| status := 200; content_type := Some "application/json; charset=UTF-8";
     location := None; text := Normal ""; json := Normal v; arrayBuffer := Normal [] |}.

Definition error_response (s : Z) (body : string) : Response :=
  {| status := s; content_type := Some "text/plain"; location := None;
     text := Normal body; json := Throw (Error "Unexpected token"); arrayBuffer := Normal [] |}.

Definition image_response (ctype : option string) (bytes : list Byte.byte) : Response :=
  {| status := 200; content_type := ctype; location := None;
     text := Normal ""; json := Throw (Error "Unexpected token");
     arrayBuffer := Normal bytes |}.

Definition redirect_response (loc : string) : Response :=
  {| status := 302; content_type := None; location := Some loc;
     text := Normal ""; json := Throw (Error "Unexpected end of JSON input");
     arrayBuffer := Normal [] |}.

(** An upstream that answers by the kind of call. *)
Definition env_of (geo details photo media : completion Response) : Env :=
  {| GOOGLE_KEY := Some "secret";
     clock := fun n => 1700000000000 + 7 * Z.of_nat n;
     network := fun _ call =>
       match call with
       | GeocodeCall _ _ => geo
       | PlaceDetailsCall _ _ _ => details
       | PhotoMediaCall _ _ _ _ => photo
       | UrlCall _ => media
       end |}.

Definition offline : completion Response := Throw (Error "fetch failed").

Definition post (body : value) : NextRequest :=
  {| x_forwarded_for := Some "203.0.113.7, 10.0.0.1"; ip := None;
     req_json := Normal body; searchParams := [] |}.

Definition get (sp : list (string * string)) : NextRequest :=
  {| x_forwarded_for := None; ip := Some "198.51.100.4";
     req_json := Throw (Error "Unexpected end of JSON input"); searchParams := sp |}.

Definition body_of (address : string) (selectedIndex : value) : value :=
  VObj [("address", VStr address); ("selectedIndex", selectedIndex)].

Definition record (address : string) (placeId : value) : value :=
  VObj [("formatted_address", VStr address);
        ("place_id", placeId);
        ("geometry",
         VObj [("location",
                VObj [("lat", VNum (Finite (37422 # 1000)));
                      ("lng", VNum (Finite (-122084 # 1000)))])])].

Definition two_results : value :=
  VObj [("results", VArr [record "1600 Amphitheatre Pkwy" (VStr "X");
                          record "1600 Amphitheatre Ave" (VStr "Y")]);
        ("status", VStr "OK")].

Definition one_result : value :=
  VObj [("results", VArr [record "1600 Amphitheatre Pkwy" (VStr "X")]);
        ("status", VStr "OK")].

Definition zero_results : value :=
  VObj [("results", VArr []); ("status", VStr "ZERO_RESULTS")].

Definition place_X : value := VObj [("id", VStr "X")].

(** Two matches, the second selected, details found. *)
Definition env_two : Env :=
  env_of (Normal (json_response two_results)) (Normal (json_response place_X))
    offline offline.
Definition req_second : NextRequest :=
  post (body_of "  1600 Amphitheatre Parkway " (VNum (Finite (1 # 1)))).

(** One match, details answered 404. *)
Definition env_details_404 : Env :=
  env_of (Normal (json_response one_result)) (Normal (error_response 404 "not found"))
    offline offline.
Definition req_plain : NextRequest :=
  post (VObj [("address", VStr "1600 Amphitheatre Parkway, Mountain View, CA")]).

(** No match. *)
Definition env_none : Env :=
  env_of (Normal (json_response zero_results)) offline offline offline.
Definition req_nowhere : NextRequest :=
  post (VObj [("address", VStr "zzz-nonexistent-address-zzz")]).

(** The three protocols of the photo media upstream. *)
Definition jpeg : list Byte.byte := [Byte.xff; Byte.xd8; Byte.xff].

Definition env_photo_json : Env :=
  env_of offline offline
    (Normal (json_response (VObj [("photoUri", VStr "https://lh3.example/p/1")])))
    (Normal (image_response (Some "image/png") jpeg)).

Definition env_photo_redirect : Env :=
  env_of offline offline
    (Normal (redirect_response "https://lh3.example/p/1"))
    (Normal (image_response None jpeg)).

Definition env_photo_direct : Env :=
  env_of offline offline (Normal (image_response (Some "image/webp") jpeg)) offline.

Definition req_photo : NextRequest :=
  get [("photoName", "places/X/photos/abc"); ("maxWidthPx", "640")].

Definition req_photo_foreign : NextRequest :=
  get [("photoName", "notplaces/abc")].

Definition candidate_X : Candidate :=
  {| formatted_address := VStr "1600 Amphitheatre Pkwy";
     place_id := VStr "X";
     lat := VNum (Finite (37422 # 1000));
     lng := VNum (Finite (-122084 # 1000));
     address_components := VNull |}.

(** The states of the run of [req_plain] against [env_details_404]: after
    geocoding, and after the failed place-details call. *)
Definition st_geocoded : State := snd (geocode req_plain env_details_404 st0).
Definition st_failed : State :=
  snd (fetchPlaceDetailsNew (VStr "X") env_details_404 st_geocoded).

(** A client that calls once every three seconds. *)
Definition env_slow : Env :=
  {| GOOGLE_KEY := Some "secret";
     clock := fun n => 1700000000000 + 3000 * Z.of_nat n;
     network := fun _ _ => offline |}.

(** The response of a handler that returned. *)
Definition response (c : completion NextResponse * State) : NextResponse :=
  match fst c with
  | Normal res => res
  | Throw _ => NextResponse_text "" 0
  end.

(** The answer of a handler, when it returns. *)
Definition answer (c : completion NextResponse * State) : option NextResponse :=
  match fst c with
  | Normal res => Some res
  | Throw _ => None
  end.

(** Further sample requests, upstreams and states. *)

(** A request that carries no client address at all. *)
Definition anonymous : NextRequest :=
  {| x_forwarded_for := Some ""; ip := None;
     req_json := Normal (body_of "a" VUndefined); searchParams := [] |}.

Definition req_not_json : NextRequest :=
  {| x_forwarded_for := Some "203.0.113.7"; ip := None;
     req_json := Throw (Error "Unexpected token"); searchParams := [] |}.

Definition req_photo_hidden : NextRequest :=
  get [("photoName", ""); ("name", "places/X/photos/abc")].

(** The registry after thirty calls of [req_plain] in one window. *)
Definition st_full : State := snd (rateLimit_times req_plain 29 env_two st0).

Definition env_nokey : Env :=
  {| GOOGLE_KEY := Some ""; clock := clock env_two; network := fun _ _ => offline |}.

Definition env_offline : Env := env_of offline offline offline offline.

Definition env_geocode_503 : Env :=
  env_of (Normal (error_response 503 "unavailable")) offline offline offline.

Definition candidate_bare : Candidate :=
  {| formatted_address := VStr "Somewhere";
     place_id := VNull;
     lat := VNum (Finite (37422 # 1000));
     lng := VNum (Finite (-122084 # 1000));
     address_components := VNull |}.

Definition env_no_place_id : Env :=
  env_of (Normal (json_response (VObj [("results", VArr [record "Somewhere" VNull])])))
    offline offline offline.


Definition env_photo_404 : Env :=
  env_of offline offline (Normal (error_response 404 "")) offline.

Definition plain_address : string := "1600 Amphitheatre Parkway, Mountain View, CA".
Definition plain_body : value := VObj [("address", VStr plain_address)].

(** The media call answers with a media URL, but that URL cannot be
    reached. *)
Definition env_photo_unreachable : Env :=
  env_of offline offline
    (Normal (json_response (VObj [("photoUri", VStr "https://lh3.example/p/1")])))
    offline.

End Demo.

(** * Vocabulary of the further properties *)

(** A string that does not begin with white space. *)
Definition starts_clean (s : string) : Prop :=
  match s with
  | String a _ => is_white a = false
  | EmptyString => True
  end.

(** ** The page ([src/app/page.tsx])

    The page posts the address to the lookup route and keeps the parsed
    answer.  Indices held by the page are integers: the initial 0, the
    index of a 200 answer, or the position of an option of the candidate
    selector. *)

(** [LookupResponse]: what [await res.json()] yields for a 200 answer. *)
Record LookupResponse := {
  lr_query : string;
  lr_candidates : list Candidate;
  lr_selectedIndex : Z;
  lr_place : value;
  lr_warnings : list string;
  lr_latencyMs : option Z;
}.

(** The typed view of a response body: only a lookup payload is one. *)
Definition LookupResponse_of (body : Body) : option LookupResponse :=
  match body with
  | JsonLookup query candidates selectedIndex place warnings latencyMs =>
      Some {| lr_query := query; lr_candidates := candidates;
              lr_selectedIndex := selectedIndex; lr_place := place;
              lr_warnings := warnings; lr_latencyMs := latencyMs |}
  | _ => None
  end.

(** [data.geocode.candidates[data.geocode.selectedIndex] ?? null], and
    null without data. *)
Definition selectedCandidate (data : option LookupResponse) : option Candidate :=
  match data with
  | None => None
  | Some d =>
      if 0 <=? lr_selectedIndex d
      then lr_candidates d !! Z.to_nat (lr_selectedIndex d)
      else None
  end.

(** [disabled={loading || !address.trim()}] *)
Definition submit_disabled (loading : bool) (address : string) : bool :=
  loading || negb (truthy (VStr (trim address))).

(** The body of the request of [submitLookup(idxOverride)]:
    [{ address, selectedIndex: idxOverride ?? selectedIndex }]. *)
Definition submit_body (address : string) (idxOverride : option Z) (selectedIndex : Z)
  : value :=
  VObj [("address", VStr address);
        ("selectedIndex", VNum (Finite (inject_Z (default selectedIndex idxOverride))))].

(** * Properties *)

(** ** Rate limiter *)

Lemma rateLimit_run (req : NextRequest) (env : Env) (st : State) :
  rateLimit req env st =
    (Normal (if (MAX_REQUESTS <? length (recent_at (clock env (clock_reads st))
                                          (default [] (buckets st !! getIp req))))%nat
             then Some "Rate limit exceeded. Please try again shortly."
             else None),
     {| buckets := <[getIp req := recent_at (clock env (clock_reads st))
                                    (default [] (buckets st !! getIp req))]> (buckets st);
        clock_reads := S (clock_reads st);
        calls := calls st |}).
Proof.
  unfold rateLimit, recent_at, bind, Date_now, buckets_get, buckets_set, ret; simpl.
  destruct (_ <? _)%nat; reflexivity.
Qed.

Lemma recent_at_length (now : Z) (arr : list Z) :
  length (recent_at now arr) = S (length (filter (fun t => now - t < WINDOW_MS) arr)).
Proof. unfold recent_at. rewrite length_app. simpl. lia. Qed.

Lemma recent_at_elem (now : Z) (arr : list Z) (t : Z) :
  t ∈ recent_at now arr <-> (t ∈ arr /\ now - t < WINDOW_MS) \/ t = now.
Proof.
  unfold recent_at. rewrite elem_of_app, list_elem_of_filter, list_elem_of_singleton.
  tauto.
Qed.

(** C1. One call of the rate limiter, for any client, clock and registry:
    it returns normally; the client's entry becomes the stored timestamps
    [t] with [now - t < 60000], in their order, followed by [now]; the
    entries of other clients, and the log of outbound calls, are untouched;
    the call is rejected (a non-empty message is returned) exactly when the
    new entry has more than 30 timestamps; and that count is one more than
    the number of stored timestamps inside the window, so timestamps
    outside it do not count. *)
Theorem rateLimit_sliding_window (req : NextRequest) (env : Env) (st : State) :
  let client := getIp req in
  let now := clock env (clock_reads st) in
  let arr := default [] (buckets st !! client) in
  let recent := filter (fun t => now - t < 60000) arr ++ [now] in
  exists (rl : option string) (st' : State),
    rateLimit req env st = (Normal rl, st') /\
    buckets st' !! client = Some recent /\
    (forall other, other <> client -> buckets st' !! other = buckets st !! other) /\
    calls st' = calls st /\
    (truthy_str rl = true <-> (30 < length recent)%nat) /\
    (rl = None <-> (length recent <= 30)%nat) /\
    length recent = S (length (filter (fun t => now - t < 60000) arr)) /\
    (forall t, t ∈ recent <-> (t ∈ arr /\ now - t < 60000) \/ t = now).
Proof.
  intros client now arr recent.
  rewrite rateLimit_run. fold client now arr.
  change (recent_at now arr) with recent.
  eexists _, _. split; [reflexivity|]. simpl.
  split; [apply lookup_insert_eq|].
  split; [intros other Hne; apply lookup_insert_ne; congruence|].
  split; [reflexivity|].
  change MAX_REQUESTS with 30%nat.
  destruct (30 <? length recent)%nat eqn:E.
  - apply Nat.ltb_lt in E.
    repeat split; try (intros; first [lia | discriminate | reflexivity | assumption]).
    + apply (recent_at_length now arr).
    + apply (recent_at_elem now arr t).
    + apply (recent_at_elem now arr t).
  - apply Nat.ltb_ge in E.
    repeat split; try (intros; first [lia | discriminate | reflexivity | assumption]).
    + apply (recent_at_length now arr).
    + apply (recent_at_elem now arr t).
    + apply (recent_at_elem now arr t).
Qed.

(** ** Running the handlers *)

Lemma Array_map_length {A B} (f : A -> completion B) (arr : list A) (out : list B) :
  Array_map f arr = Normal out -> length out = length arr.
Proof.
  revert out. induction arr as [|x rest IH]; intros out H; simpl in H.
  - injection H as <-. reflexivity.
  - destruct (f x) as [y|e]; simpl in H; [|discriminate].
    destruct (Array_map f rest) as [ys|e]; simpl in H; [|discriminate].
    injection H as <-. simpl. f_equal. apply IH. reflexivity.
Qed.

Lemma geocode_inv (req : NextRequest) (env : Env) (st st' : State) (g : Geocoded) :
  geocode req env st = (Normal g, st') ->
  match g with
  | Responded res =>
      (res_status res <> 200 /\ calls st' = calls st \/
       res_status res = 502 /\ exists address,
         calls st' = calls st ++ [GeocodeCall address (GOOGLE_KEY env)]) \/
      exists body address selectedIndex geoRes geoData results,
        req_json req = Normal body /\
        BodySchema_safeParse body = Some (address, selectedIndex) /\
        network env (length (calls st)) (GeocodeCall address (GOOGLE_KEY env)) = Normal geoRes /\
        ok geoRes = true /\ json geoRes = Normal geoData /\
        get_prop geoData "results" = Normal results /\
        (Array_isArray results = false \/ elements results = []) /\
        res = EMPTY_RESULT address /\
        st' = after_call (GeocodeCall address (GOOGLE_KEY env)) (after_clock (after_gate req env st))
  | Selected address started warnings candidates idx =>
      exists body selectedIndex geoRes geoData results,
        req_json req = Normal body /\
        BodySchema_safeParse body = Some (address, selectedIndex) /\
        network env (length (calls st)) (GeocodeCall address (GOOGLE_KEY env)) = Normal geoRes /\
        ok geoRes = true /\ json geoRes = Normal geoData /\
        get_prop geoData "results" = Normal (VArr results) /\
        results <> [] /\
        Array_map toCandidate results = Normal candidates /\
        started = clock env (S (clock_reads st)) /\
        warnings = (if (1 <? length candidates)%nat then [MULTIPLE_MATCHES] else []) /\
        idx = select_idx selectedIndex (length candidates) /\
        st' = after_call (GeocodeCall address (GOOGLE_KEY env)) (after_clock (after_gate req env st))
  end.
Proof.
  intros H. unfold geocode in H. unfold bind at 1 in H. rewrite rateLimit_run in H.
  cbv beta iota delta [bind ret await throw env_key Date_now fetch] in H.
  destruct (truthy_str (if (_ <? _)%nat then _ else _)) eqn:Hrl.
  { injection H as <- <-. left. left. split; [simpl; lia | reflexivity]. }
  destruct (truthy_str (GOOGLE_KEY env)) eqn:Hkey; cbn [negb] in H.
  2:{ injection H as <- <-. left. left. split; [simpl; lia | reflexivity]. }
  destruct (req_json req) as [body|e] eqn:Hbody.
  2:{ injection H as <- <-. left. left. split; [simpl; lia | reflexivity]. }
  destruct (BodySchema_safeParse body) as [[address selectedIndex]|] eqn:Hparse.
  2:{ injection H as <- <-. left. left. split; [simpl; lia | reflexivity]. }
  cbn [calls buckets clock_reads] in H.
  destruct (network env (length (calls st)) (GeocodeCall address (GOOGLE_KEY env)))
    as [geoRes|e] eqn:Hnet; [|discriminate].
  destruct (ok geoRes) eqn:Hok; cbn [negb] in H.
  2:{ injection H as <- <-. left. right. split; [reflexivity|]. exists address. reflexivity. }
  destruct (json geoRes) as [geoData|e] eqn:Hjson; [|discriminate].
  destruct (get_prop geoData "results") as [results|e] eqn:Hres; [|discriminate].
  destruct (negb (Array_isArray results) || (length (elements results) =? 0)%nat) eqn:Hempty.
  { injection H as <- <-. right.
    exists body, address, selectedIndex, geoRes, geoData, results.
    repeat (split; [first [assumption | reflexivity]|]).
    split; [|split; reflexivity].
    apply orb_true_iff in Hempty as [H|H].
    - left. apply negb_true_iff in H. exact H.
    - right. apply Nat.eqb_eq in H. destruct (elements results); [reflexivity|discriminate]. }
  apply orb_false_iff in Hempty as [Harr Hlen].
  apply negb_false_iff in Harr.
  destruct results as [| | | | |elems|]; try discriminate.
  cbv beta iota delta [elements] in H, Hlen.
  destruct (Array_map toCandidate elems) as [candidates|e] eqn:Hmap; [|discriminate].
  injection H as <- <-.
  exists body, selectedIndex, geoRes, geoData, elems.
  repeat (split; [first [assumption | reflexivity]|]).
  split; [intros Hnil; rewrite Hnil in Hlen; discriminate Hlen|].
  repeat (split; [first [assumption | reflexivity]|]).
  reflexivity.
Qed.

Lemma Array_map_nonempty {A B} (f : A -> completion B) (arr : list A) (out : list B) :
  Array_map f arr = Normal out -> arr <> [] -> out <> [].
Proof.
  intros H Hne ->. apply Array_map_length in H. destruct arr; [congruence|discriminate].
Qed.

Lemma select_idx_range (selectedIndex : option Z) (n : nat) :
  (0 < n)%nat -> 0 <= select_idx selectedIndex n < Z.of_nat n.
Proof.
  intros Hn. unfold select_idx. destruct selectedIndex as [i|]; [|lia].
  destruct ((0 <=? i) && (i <? Z.of_nat n)) eqn:E; [|lia].
  apply andb_true_iff in E as [E1 E2]. lia.
Qed.

Lemma lookup_select_idx {A} (l : list A) (selectedIndex : option Z) :
  l <> [] -> is_Some (l !! Z.to_nat (select_idx selectedIndex (length l))).
Proof.
  intros Hne. apply lookup_lt_is_Some.
  assert (0 < length l)%nat by (destruct l; [congruence | simpl; lia]).
  pose proof (select_idx_range selectedIndex (length l) H). lia.
Qed.

(** The place-details call, by what the network answers. *)
Lemma fetchPlaceDetailsNew_run (placeId : value) (env : Env) (st : State) :
  fetchPlaceDetailsNew placeId env st =
    (match network env (length (calls st))
             (PlaceDetailsCall placeId (GOOGLE_KEY env) PLACE_FIELD_MASK) with
     | Throw e => Throw e
     | Normal resp =>
         if ok resp then json resp
         else Throw (Error ("Places v1 details failed with status "
                            ++ decimal (status resp)
                            ++ (if negb (String.eqb (catch_default (text resp) "") "")
                                then ": " ++ catch_default (text resp) ""
                                else ""))%string)
     end,
     after_call (PlaceDetailsCall placeId (GOOGLE_KEY env) PLACE_FIELD_MASK) st).
Proof.
  unfold fetchPlaceDetailsNew.
  cbv beta iota delta [bind ret await throw env_key fetch].
  fold (after_call (PlaceDetailsCall placeId (GOOGLE_KEY env) PLACE_FIELD_MASK) st).
  destruct (network env _ _) as [resp|e]; [|reflexivity].
  destruct (ok resp); reflexivity.
Qed.

(** The second part of [POST], once [chosen] is known. *)
Lemma enrich_run (address : string) (started : Z) (warnings : list string)
    (candidates : list Candidate) (idx : Z) (chosen : Candidate)
    (env : Env) (st : State) :
  candidates !! Z.to_nat idx = Some chosen ->
  enrich address started warnings candidates idx env st =
    let '(place, warning, st1) :=
      if truthy (place_id chosen) then
        match fetchPlaceDetailsNew (place_id chosen) env st with
        | (Normal place, st1) => (place, PLACES_NEW, st1)
        | (Throw e, st1) => (VNull, default "Place details fetch failed" (message e), st1)
        end
      else (VNull, NO_PLACE_ID, st) in
    (Normal (NextResponse_json
               (JsonLookup address candidates idx place (warnings ++ [warning])
                  (Some (clock env (clock_reads st1) - started))) 200),
     after_clock st1).
Proof.
  intros Hchosen. unfold enrich. rewrite Hchosen.
  destruct (truthy (place_id chosen)); cbn [negb].
  - cbv beta iota delta [bind ret try_catch Date_now].
    destruct (fetchPlaceDetailsNew (place_id chosen) env st) as [[place|e] st1];
      reflexivity.
  - reflexivity.
Qed.

Lemma POST_run (req : NextRequest) (env : Env) (st : State) :
  POST req env st =
    match geocode req env st with
    | (Normal (Responded res), st1) => (Normal res, st1)
    | (Normal (Selected address started warnings candidates idx), st1) =>
        enrich address started warnings candidates idx env st1
    | (Throw e, st1) => (Throw e, st1)
    end.
Proof.
  unfold POST, bind.
  destruct (geocode req env st) as [[[res|address started warnings candidates idx]|e] st1];
    reflexivity.
Qed.

Lemma enrich_inv (address : string) (started : Z) (warnings : list string)
    (candidates : list Candidate) (idx : Z) (chosen : Candidate)
    (env : Env) (st : State) :
  candidates !! Z.to_nat idx = Some chosen ->
  exists place warning st1,
    Enriched env st chosen place warning st1 /\
    enrich address started warnings candidates idx env st =
      (Normal (NextResponse_json
                 (JsonLookup address candidates idx place (warnings ++ [warning])
                    (Some (clock env (clock_reads st1) - started))) 200),
       after_clock st1).
Proof.
  intros Hchosen. rewrite (enrich_run _ _ _ _ _ chosen) by exact Hchosen.
  destruct (truthy (place_id chosen)) eqn:Hpid.
  - destruct (fetchPlaceDetailsNew (place_id chosen) env st) as [[place|e] st1] eqn:Hfetch.
    + exists place, PLACES_NEW, st1. split; [|reflexivity].
      apply Enriched_details; assumption.
    + eexists VNull, _, st1. split; [|reflexivity].
      apply Enriched_failed; assumption.
  - exists VNull, NO_PLACE_ID, st. split; [|reflexivity].
    apply Enriched_no_place_id; assumption.
Qed.

Lemma POST_inv (req : NextRequest) (env : Env) (st st' : State) (res : NextResponse) :
  POST req env st = (Normal res, st') ->
  res_status res = 200 ->
  Lookup200 req env st res st'.
Proof.
  intros H H200. rewrite POST_run in H.
  destruct (geocode req env st) as [[g|e] st1] eqn:Hgeo; [|discriminate].
  apply geocode_inv in Hgeo.
  destruct g as [res0|address started warnings candidates idx].
  - injection H as -> ->.
    destruct Hgeo as [[[Hne _]|[H502 _]]|Hempty].
    + contradiction.
    + rewrite H200 in H502. discriminate.
    + destruct Hempty as (body & address & sel & geoRes & geoData & results &
                          Hb & Hp & Hn & _ & Hj & Hr & He & -> & ->).
      eapply Lookup200_empty; eassumption.
  - destruct Hgeo as (body & sel & geoRes & geoData & results &
                      Hb & Hp & Hn & _ & Hj & Hr & Hne & Hmap & -> & -> & -> & ->).
    destruct (lookup_select_idx candidates sel) as [chosen Hchosen].
    { eapply Array_map_nonempty; eassumption. }
    destruct (enrich_inv address (clock env (S (clock_reads st)))
                (if (1 <? length candidates)%nat then [MULTIPLE_MATCHES] else [])
                candidates _ chosen env
                (after_call (GeocodeCall address (GOOGLE_KEY env))
                   (after_clock (after_gate req env st))) Hchosen)
      as (place & warning & st2 & Henr & Hrun).
    rewrite Hrun in H. injection H as <- <-.
    eapply Lookup200_full; eassumption.
Qed.

(** The first part of [POST] for a request that passes the gate, the
    configuration check and validation, and whose geocoding call resolves. *)
Lemma geocode_run (req : NextRequest) (env : Env) (st : State)
    (body : value) (address : string) (selectedIndex : option Z) (geoRes : Response) :
  fst (rateLimit req env st) = Normal None ->
  truthy_str (GOOGLE_KEY env) = true ->
  req_json req = Normal body ->
  BodySchema_safeParse body = Some (address, selectedIndex) ->
  network env (length (calls st)) (GeocodeCall address (GOOGLE_KEY env)) = Normal geoRes ->
  geocode req env st =
    (if ok geoRes then
       match json geoRes with
       | Throw e => Throw e
       | Normal geoData =>
           match get_prop geoData "results" with
           | Throw e => Throw e
           | Normal results =>
               if negb (Array_isArray results) || (length (elements results) =? 0)%nat
               then Normal (Responded (EMPTY_RESULT address))
               else
                 match Array_map toCandidate (elements results) with
                 | Throw e => Throw e
                 | Normal candidates =>
                     Normal (Selected address (clock env (S (clock_reads st)))
                               (if (1 <? length candidates)%nat
                                then [MULTIPLE_MATCHES] else [])
                               candidates
                               (select_idx selectedIndex (length candidates)))
                 end
           end
       end
     else
       Normal (Responded (NextResponse_json
                 (JsonError ("Geocoding failed with status "
                             ++ decimal (status geoRes))%string) 502)),
     after_call (GeocodeCall address (GOOGLE_KEY env)) (after_clock (after_gate req env st))).
Proof.
  intros Hrl Hkey Hbody Hparse Hnet.
  rewrite rateLimit_run in Hrl. cbn [fst] in Hrl. injection Hrl as Hrl.
  unfold geocode. unfold bind at 1. rewrite rateLimit_run, Hrl.
  cbv beta iota delta [bind ret await throw env_key Date_now fetch truthy_str].
  fold (truthy_str (GOOGLE_KEY env)). rewrite Hkey. cbn [negb].
  rewrite Hbody, Hparse. cbn [calls buckets clock_reads].
  rewrite Hnet.
  destruct (ok geoRes); cbn [negb]; [|reflexivity].
  destruct (json geoRes) as [geoData|e]; [|reflexivity].
  destruct (get_prop geoData "results") as [results|e]; [|reflexivity].
  destruct (negb (Array_isArray results) || (length (elements results) =? 0)%nat);
    [reflexivity|].
  destruct (Array_map toCandidate (elements results)) as [candidates|e]; reflexivity.
Qed.

(** ** Lookup orchestrator *)

Lemma safeParse_selectedIndex (req : NextRequest) (body : value) (address : string)
    (selectedIndex : option Z) :
  req_json req = Normal body ->
  BodySchema_safeParse body = Some (address, selectedIndex) ->
  selectedIndex = supplied_index req.
Proof.
  intros Hbody Hparse. unfold supplied_index. rewrite Hbody.
  unfold BodySchema_safeParse in Hparse.
  destruct body as [| | | | | |props]; try discriminate.
  destruct (assoc "address" props); try discriminate.
  destruct (1 <=? String.length (trim s))%nat; try discriminate.
  destruct (assoc "selectedIndex" props) as [| | |x| | |]; try discriminate.
  - congruence.
  - destruct (number_integer x) as [i|]; [|discriminate].
    destruct (0 <=? i); congruence.
Qed.

(** C2. Every 200 response of [POST] carries a lookup payload.  When its
    candidate list is non-empty, [selectedIndex] is the index the caller
    supplied if that is an integer with [0 <= i < candidates.length], and
    0 if none was supplied or it is out of bounds; so
    [0 <= selectedIndex < candidates.length].  When the candidate list is
    empty, [selectedIndex] is 0 and [place] is null. *)
Theorem POST_selectedIndex_invariant (req : NextRequest) (env : Env) (st st' : State)
    (res : NextResponse) :
  POST req env st = (Normal res, st') ->
  res_status res = 200 ->
  exists query candidates selectedIndex place warnings latencyMs,
    res_body res = JsonLookup query candidates selectedIndex place warnings latencyMs /\
    (candidates <> [] ->
       0 <= selectedIndex < Z.of_nat (length candidates) /\
       (forall i, supplied_index req = Some i ->
                  0 <= i < Z.of_nat (length candidates) -> selectedIndex = i) /\
       (forall i, supplied_index req = Some i ->
                  ~ (0 <= i < Z.of_nat (length candidates)) -> selectedIndex = 0) /\
       (supplied_index req = None -> selectedIndex = 0)) /\
    (candidates = [] -> selectedIndex = 0 /\ place = VNull).
Proof.
  intros H H200. apply POST_inv in H; [|exact H200].
  destruct H as [body address sel geoRes geoData results Hb Hp Hn Hj Hr He
                |body address sel geoRes geoData results candidates chosen place warning st1
                   Hb Hp Hn Hj Hr Hne Hmap Hchosen Henr].
  - eexists address, [], 0, VNull, _, _. split; [reflexivity|].
    split; [congruence|]. intros _. split; reflexivity.
  - eexists address, candidates, _, place, _, _. split; [reflexivity|].
    pose proof (safeParse_selectedIndex req body address sel Hb Hp) as Hsel.
    split.
    + intros Hc.
      assert (0 < length candidates)%nat as Hlen
        by (destruct candidates; [congruence | simpl; lia]).
      split; [apply select_idx_range; exact Hlen|].
      rewrite Hsel. unfold select_idx.
      repeat split.
      * intros i -> Hi.
        destruct ((0 <=? i) && (i <? Z.of_nat (length candidates))) eqn:E; [reflexivity|].
        apply andb_false_iff in E as [E|E]; lia.
      * intros i -> Hi.
        destruct ((0 <=? i) && (i <? Z.of_nat (length candidates))) eqn:E; [|reflexivity].
        apply andb_true_iff in E as [E1 E2]. lia.
      * intros ->. reflexivity.
    + intros ->. apply Array_map_length in Hmap. destruct results; [congruence|discriminate].
Qed.

(** C3. A request that passes the gate, the configuration check and
    validation, and whose geocoding call succeeds with an empty result
    list, gets a 200 response with no candidates, [selectedIndex] 0, a null
    place and the single warning "No match found."; the geocoding call is
    the only outbound call made, so place details are never requested. *)
Theorem POST_no_match (req : NextRequest) (env : Env) (st : State)
    (body : value) (address : string) (selectedIndex : option Z)
    (geoRes : Response) (geoData : value) :
  fst (rateLimit req env st) = Normal None ->
  truthy_str (GOOGLE_KEY env) = true ->
  req_json req = Normal body ->
  BodySchema_safeParse body = Some (address, selectedIndex) ->
  network env (length (calls st)) (GeocodeCall address (GOOGLE_KEY env)) = Normal geoRes ->
  ok geoRes = true ->
  json geoRes = Normal geoData ->
  get_prop geoData "results" = Normal (VArr []) ->
  exists st',
    POST req env st =
      (Normal {| res_status := 200; res_headers := [];
                 res_body := JsonLookup address [] 0 VNull ["No match found."] None |},
       st') /\
    calls st' = calls st ++ [GeocodeCall address (GOOGLE_KEY env)] /\
    (forall placeId key mask, PlaceDetailsCall placeId key mask ∈ calls st' ->
                              PlaceDetailsCall placeId key mask ∈ calls st).
Proof.
  intros Hrl Hkey Hbody Hparse Hnet Hok Hjson Hres.
  eexists. split; [|split].
  - rewrite POST_run.
    rewrite (geocode_run req env st body address selectedIndex geoRes) by assumption.
    rewrite Hok, Hjson, Hres. reflexivity.
  - reflexivity.
  - intros placeId key mask Hin. cbn [after_call calls after_clock after_gate] in Hin.
    apply elem_of_app in Hin as [Hin|Hin]; [exact Hin|].
    apply list_elem_of_singleton in Hin. discriminate.
Qed.

Lemma startsWith_append (p s : string) : startsWith (p ++ s)%string p = true.
Proof.
  unfold startsWith. induction p as [|a p IH]; simpl.
  - destruct s; reflexivity.
  - destruct (ascii_dec a a) as [_|Hne]; [exact IH | congruence].
Qed.

(** A non-success status from the place-details upstream is thrown as an
    error whose message starts with the status line. *)
Lemma fetchPlaceDetailsNew_not_ok (placeId : value) (env : Env) (st : State)
    (resp : Response) :
  network env (length (calls st))
    (PlaceDetailsCall placeId (GOOGLE_KEY env) PLACE_FIELD_MASK) = Normal resp ->
  ok resp = false ->
  exists msg,
    fetchPlaceDetailsNew placeId env st =
      (Throw (Error msg),
       after_call (PlaceDetailsCall placeId (GOOGLE_KEY env) PLACE_FIELD_MASK) st) /\
    startsWith msg "Places v1 details failed with status " = true.
Proof.
  intros Hnet Hok. rewrite fetchPlaceDetailsNew_run, Hnet, Hok.
  eexists. split; [reflexivity|]. apply startsWith_append.
Qed.

(** C4. Once [POST] has reached the enrichment step with a chosen
    candidate that has a place id, a place-details fetch that throws (a
    rejected call, a non-success status, an unreadable body) is caught:
    [POST] returns 200, [place] is null, the error's message (or the
    default text when it has none) is appended to the warnings, and the
    elapsed time and the payload are computed as on success. *)
Theorem POST_enrichment_failure_nonfatal (req : NextRequest) (env : Env)
    (st st1 st2 : State) (address : string) (started : Z) (warnings : list string)
    (candidates : list Candidate) (idx : Z) (chosen : Candidate) (e : JsError) :
  geocode req env st = (Normal (Selected address started warnings candidates idx), st1) ->
  candidates !! Z.to_nat idx = Some chosen ->
  truthy (place_id chosen) = true ->
  fetchPlaceDetailsNew (place_id chosen) env st1 = (Throw e, st2) ->
  exists res st',
    POST req env st = (Normal res, st') /\
    res_status res = 200 /\
    res_body res =
      JsonLookup address candidates idx VNull
        (warnings ++ [default "Place details fetch failed" (message e)])
        (Some (clock env (clock_reads st2) - started)) /\
    calls st' = calls st2.
Proof.
  intros Hgeo Hchosen Hpid Hfetch.
  eexists _, _. split; [|split; [|split]].
  - rewrite POST_run, Hgeo.
    rewrite (enrich_run _ _ _ _ _ chosen) by exact Hchosen.
    rewrite Hpid, Hfetch. reflexivity.
  - reflexivity.
  - reflexivity.
  - reflexivity.
Qed.

Lemma Enriched_warning_not_multiple (env : Env) (st st1 : State) (chosen : Candidate)
    (place : value) (warning : string) :
  platform_errors_differ_from env MULTIPLE_MATCHES ->
  Enriched env st chosen place warning st1 ->
  warning <> MULTIPLE_MATCHES.
Proof.
  intros [Hnet Hjson] Henr.
  destruct Henr as [Hpid|place st1 Hpid Hfetch|e st1 Hpid Hfetch].
  - discriminate.
  - discriminate.
  - rewrite fetchPlaceDetailsNew_run in Hfetch.
    destruct (network env _ _) as [resp|e'] eqn:Hcall.
    + destruct (ok resp).
      * injection Hfetch as Hj _.
        specialize (Hjson _ _ _ _ Hcall Hj).
        destruct (message e) as [m|]; [cbn; congruence | discriminate].
      * injection Hfetch as <- _. discriminate.
    + injection Hfetch as <- _.
      specialize (Hnet _ _ _ Hcall).
      destruct (message e') as [m|]; [cbn; congruence | discriminate].
Qed.

(** C7. In every 200 response of [POST] the candidate list is as long as
    the geocoding result list, and the warnings contain "Multiple matches
    found; showing best match." whenever that list has more than one
    entry, whatever index was selected; with zero or one entry the
    message is absent (the platform's own error texts being different
    from it). *)
Theorem POST_multiple_matches_warning (req : NextRequest) (env : Env) (st st' : State)
    (res : NextResponse) :
  POST req env st = (Normal res, st') ->
  res_status res = 200 ->
  exists query candidates selectedIndex place warnings latencyMs,
    res_body res = JsonLookup query candidates selectedIndex place warnings latencyMs /\
    (forall geoRes geoData results,
       network env (length (calls st)) (GeocodeCall query (GOOGLE_KEY env)) = Normal geoRes ->
       json geoRes = Normal geoData ->
       get_prop geoData "results" = Normal (VArr results) ->
       length candidates = length results) /\
    ((1 < length candidates)%nat ->
       "Multiple matches found; showing best match." ∈ warnings) /\
    ((length candidates <= 1)%nat ->
       platform_errors_differ_from env "Multiple matches found; showing best match." ->
       "Multiple matches found; showing best match." ∉ warnings).
Proof.
  intros H H200. apply POST_inv in H; [|exact H200].
  destruct H as [body address sel geoRes geoData results Hb Hp Hn Hj Hr He
                |body address sel geoRes geoData results candidates chosen place warning st1
                   Hb Hp Hn Hj Hr Hne Hmap Hchosen Henr].
  - eexists address, [], 0, VNull, _, _. split; [reflexivity|].
    split; [|split].
    + intros geoRes' geoData' results' Hn' Hj' Hr'.
      rewrite Hn in Hn'. injection Hn' as <-.
      rewrite Hj in Hj'. injection Hj' as <-.
      rewrite Hr in Hr'. injection Hr' as ->.
      destruct He as [He|He]; [discriminate|]. cbn in He. rewrite He. reflexivity.
    + cbn. lia.
    + intros _ _ Hin. apply list_elem_of_singleton in Hin. discriminate.
  - eexists address, candidates, _, place, _, _. split; [reflexivity|].
    split; [|split].
    + intros geoRes' geoData' results' Hn' Hj' Hr'.
      rewrite Hn in Hn'. injection Hn' as <-.
      rewrite Hj in Hj'. injection Hj' as <-.
      rewrite Hr in Hr'. injection Hr' as <-.
      eapply Array_map_length; eassumption.
    + intros Hlen. apply Nat.ltb_lt in Hlen. rewrite Hlen.
      apply elem_of_app. left. apply list_elem_of_singleton. reflexivity.
    + intros Hlen Hplat Hin.
      assert ((1 <? length candidates)%nat = false) as E by (apply Nat.ltb_ge; lia).
      rewrite E in Hin. cbn [app] in Hin. apply list_elem_of_singleton in Hin.
      symmetry in Hin. revert Hin.
      eapply Enriched_warning_not_multiple; eassumption.
Qed.

(** ** Photo proxy *)

(** [GET] for a request that passes the gate and the configuration check. *)
Lemma GET_run (req : NextRequest) (env : Env) (st : State) :
  fst (rateLimit req env st) = Normal None ->
  truthy_str (GOOGLE_KEY env) = true ->
  GET req env st =
    let st1 := after_gate req env st in
    match photoName_param (searchParams req) with
    | None => (Normal (NextResponse_text "photoName required" 400), st1)
    | Some photoName =>
    if String.eqb photoName "" then
      (Normal (NextResponse_text "photoName required" 400), st1)
    else if negb (startsWith photoName "places/") then
      (Normal (NextResponse_text PHOTO_NAME_PREFIX_MESSAGE 400), st1)
    else
    let call := photo_call req photoName (GOOGLE_KEY env) in
    let st2 := after_call call st1 in
    match network env (length (calls st)) call with
    | Throw e => (Throw e, st2)
    | Normal resp =>
    if ok resp && includes (default "" (content_type resp)) "application/json" then
      let mediaUrl := get_opt (catch_default (json resp) VNull) "photoUri" in
      if negb (truthy mediaUrl) then
        (Normal (NextResponse_text "Failed to resolve photo media URL" 502), st2)
      else
      let st3 := after_call (UrlCall mediaUrl) st2 in
      match network env (S (length (calls st))) (UrlCall mediaUrl) with
      | Throw e => (Throw e, st3)
      | Normal mediaResp =>
      if negb (ok mediaResp) then
        (Normal (NextResponse_text "Failed to fetch photo" 502), st3)
      else
      match arrayBuffer mediaResp with
      | Throw e => (Throw e, st3)
      | Normal bytes =>
          (Normal (NextResponse_image bytes (default "image/jpeg" (content_type mediaResp))),
           st3)
      end
      end
    else
    if (300 <=? status resp) && (status resp <? 400) then
      if negb (truthy_str (location resp)) then
        (Normal (NextResponse_text "Failed to fetch photo" 502), st2)
      else
      let loc := VStr (default "" (location resp)) in
      let st3 := after_call (UrlCall loc) st2 in
      match network env (S (length (calls st))) (UrlCall loc) with
      | Throw e => (Throw e, st3)
      | Normal mediaResp =>
      if negb (ok mediaResp) then
        (Normal (NextResponse_text "Failed to fetch photo" 502), st3)
      else
      match arrayBuffer mediaResp with
      | Throw e => (Throw e, st3)
      | Normal bytes =>
          (Normal (NextResponse_image bytes (default "image/jpeg" (content_type mediaResp))),
           st3)
      end
      end
    else
    if negb (ok resp) then (Normal (NextResponse_text "Failed to fetch photo" 502), st2)
    else
    match arrayBuffer resp with
    | Throw e => (Throw e, st2)
    | Normal bytes =>
        (Normal (NextResponse_image bytes (default "image/jpeg" (content_type resp))), st2)
    end
    end
    end.
Proof.
  intros Hrl Hkey.
  rewrite rateLimit_run in Hrl. cbn [fst] in Hrl. injection Hrl as Hrl.
  unfold GET. unfold bind at 1. rewrite rateLimit_run, Hrl.
  cbv beta iota zeta delta [bind ret await throw env_key fetch truthy_str photo_call].
  fold (truthy_str (GOOGLE_KEY env)). rewrite Hkey. cbn [negb].
  fold (after_gate req env st).
  destruct (photoName_param (searchParams req)) as [photoName|]; [|reflexivity].
  cbn [negb default from_option id].
  destruct (String.eqb photoName ""); cbn [negb]; [reflexivity|].
  destruct (startsWith photoName "places/"); cbn [negb]; [|reflexivity].
  assert (forall l (c : FetchCall), length (l ++ [c]) = S (length l)) as Hlen
    by (intros; rewrite length_app; simpl; lia).
  cbn [calls after_gate].
  destruct (network env (length (calls st)) _) as [resp|e]; [|reflexivity].
  destruct (ok resp && includes (default "" (content_type resp)) "application/json").
  { destruct (truthy _); cbn [negb calls]; rewrite ?Hlen; [|reflexivity].
    destruct (network env (S (length (calls st))) _) as [mediaResp|e]; [|reflexivity].
    destruct (ok mediaResp); cbn [negb]; [|reflexivity].
    destruct (arrayBuffer mediaResp); reflexivity. }
  destruct ((300 <=? status resp) && (status resp <? 400)).
  { destruct (location resp) as [loc|]; cbn [negb default from_option id]; [|reflexivity].
    destruct (String.eqb loc ""); cbn [negb calls]; rewrite ?Hlen; [reflexivity|].
    destruct (network env (S (length (calls st))) _) as [mediaResp|e]; [|reflexivity].
    destruct (ok mediaResp); cbn [negb]; [|reflexivity].
    destruct (arrayBuffer mediaResp); reflexivity. }
  destruct (ok resp); cbn [negb]; [|reflexivity].
  destruct (arrayBuffer resp); reflexivity.
Qed.

Lemma rateLimit_admits_or_rejects (req : NextRequest) (env : Env) (st : State) :
  fst (rateLimit req env st) = Normal None \/
  fst (rateLimit req env st) = Normal (Some "Rate limit exceeded. Please try again shortly.").
Proof.
  rewrite rateLimit_run. cbn [fst]. destruct (_ <? _)%nat; [right|left]; reflexivity.
Qed.

Lemma GET_rejected (req : NextRequest) (env : Env) (st : State) :
  fst (rateLimit req env st) =
    Normal (Some "Rate limit exceeded. Please try again shortly.") ->
  GET req env st =
    (Normal (NextResponse_text "Rate limit exceeded. Please try again shortly." 429),
     after_gate req env st).
Proof.
  intros Hrl. rewrite rateLimit_run in Hrl. cbn [fst] in Hrl. injection Hrl as Hrl.
  unfold GET. unfold bind at 1. rewrite rateLimit_run, Hrl. reflexivity.
Qed.

Lemma GET_unconfigured (req : NextRequest) (env : Env) (st : State) :
  fst (rateLimit req env st) = Normal None ->
  truthy_str (GOOGLE_KEY env) = false ->
  GET req env st =
    (Normal (NextResponse_text "Server not configured" 500), after_gate req env st).
Proof.
  intros Hrl Hkey. rewrite rateLimit_run in Hrl. cbn [fst] in Hrl. injection Hrl as Hrl.
  unfold GET. unfold bind at 1. rewrite rateLimit_run, Hrl.
  cbv beta iota zeta delta [bind ret env_key truthy_str].
  fold (truthy_str (GOOGLE_KEY env)). rewrite Hkey. reflexivity.
Qed.

(** C5. A photo request that is admitted by the rate limiter, with the
    credential configured, whose photo name is present but does not start
    with "places/", is answered 400 and no outbound call is made. *)
Theorem GET_rejects_unprefixed_photoName (req : NextRequest) (env : Env) (st : State)
    (photoName : string) :
  fst (rateLimit req env st) = Normal None ->
  truthy_str (GOOGLE_KEY env) = true ->
  photoName_param (searchParams req) = Some photoName ->
  startsWith photoName "places/" = false ->
  exists res st',
    GET req env st = (Normal res, st') /\
    res_status res = 400 /\
    calls st' = calls st.
Proof.
  intros Hrl Hkey Hname Hprefix.
  rewrite (GET_run req env st Hrl Hkey), Hname, Hprefix. cbn zeta. cbn [negb].
  destruct (String.eqb photoName ""); eexists _, _; repeat split; reflexivity.
Qed.

(** C9. Every 200 response of [GET], whichever branch produced it, has
    the header [cache-control: public, max-age=86400]. *)
Theorem GET_success_cache_control (req : NextRequest) (env : Env) (st st' : State)
    (res : NextResponse) :
  GET req env st = (Normal res, st') ->
  res_status res = 200 ->
  header_get (res_headers res) "cache-control" = Some "public, max-age=86400".
Proof.
  intros H H200.
  destruct (rateLimit_admits_or_rejects req env st) as [Hrl|Hrl].
  2:{ rewrite (GET_rejected req env st Hrl) in H. injection H as <- _. discriminate. }
  destruct (truthy_str (GOOGLE_KEY env)) eqn:Hkey.
  2:{ rewrite (GET_unconfigured req env st Hrl Hkey) in H. injection H as <- _.
      discriminate. }
  rewrite (GET_run req env st Hrl Hkey) in H. cbv zeta in H.
  repeat match type of H with
         | context [match ?x with _ => _ end] => destruct x
         end;
    first [discriminate H | injection H as <- _; first [discriminate H200 | reflexivity]].
Qed.

(** C6. When the media call answers 2xx with a JSON content type, [GET]
    takes the JSON branch and no other: it reads [photoUri] from the
    body; if the body does not parse, or the field is absent (or
    otherwise falsy), it answers 502 without a second fetch; otherwise it
    fetches that URL.  If that second fetch resolves, [GET] answers 502
    when the answer is not a success, and 200 with the bytes and content
    type of that answer when it is and its body can be read.  If the
    second fetch is rejected, or the body of its answer cannot be read,
    nothing catches the error: [GET] raises it and returns no response.
    The first answer's own body and location are never used. *)
Theorem GET_json_wrapped_media_url (req : NextRequest) (env : Env) (st : State)
    (photoName : string) (resp : Response) :
  fst (rateLimit req env st) = Normal None ->
  truthy_str (GOOGLE_KEY env) = true ->
  photoName_param (searchParams req) = Some photoName ->
  startsWith photoName "places/" = true ->
  network env (length (calls st)) (photo_call req photoName (GOOGLE_KEY env)) = Normal resp ->
  ok resp = true ->
  includes (default "" (content_type resp)) "application/json" = true ->
  let call := photo_call req photoName (GOOGLE_KEY env) in
  let mediaUrl := get_opt (catch_default (json resp) VNull) "photoUri" in
  (forall e, json resp = Throw e -> mediaUrl = VUndefined) /\
  (forall props, json resp = Normal (VObj props) -> mediaUrl = assoc "photoUri" props) /\
  (truthy mediaUrl = false ->
     exists st',
       GET req env st =
         (Normal (NextResponse_text "Failed to resolve photo media URL" 502), st') /\
       calls st' = calls st ++ [call]) /\
  (truthy mediaUrl = true ->
     (forall e,
        network env (S (length (calls st))) (UrlCall mediaUrl) = Throw e ->
        exists st',
          GET req env st = (Throw e, st') /\
          calls st' = calls st ++ [call; UrlCall mediaUrl]) /\
     (forall mediaResp,
        network env (S (length (calls st))) (UrlCall mediaUrl) = Normal mediaResp ->
        (ok mediaResp = false ->
           exists st',
             GET req env st = (Normal (NextResponse_text "Failed to fetch photo" 502), st') /\
             calls st' = calls st ++ [call; UrlCall mediaUrl]) /\
        (ok mediaResp = true ->
           (forall e, arrayBuffer mediaResp = Throw e ->
              exists st',
                GET req env st = (Throw e, st') /\
                calls st' = calls st ++ [call; UrlCall mediaUrl]) /\
           (forall bytes, arrayBuffer mediaResp = Normal bytes ->
              exists st',
                GET req env st =
                  (Normal {| res_status := 200;
                             res_headers :=
                               [("content-type",
                                 default "image/jpeg" (content_type mediaResp));
                                ("cache-control", "public, max-age=86400")];
                             res_body := BufferBody bytes |},
                   st') /\
                calls st' = calls st ++ [call; UrlCall mediaUrl])))).
Proof.
  intros Hrl Hkey Hname Hprefix Hnet Hok Hjson call mediaUrl.
  assert (String.eqb photoName "" = false) as Hne
    by (destruct photoName; [discriminate Hprefix | reflexivity]).
  pose proof (GET_run req env st Hrl Hkey) as Hrun.
  rewrite Hname, Hne, Hprefix in Hrun. cbv zeta in Hrun. cbn [negb] in Hrun.
  fold call in Hnet, Hrun. rewrite Hnet, Hok, Hjson in Hrun. cbn [andb] in Hrun.
  fold mediaUrl in Hrun.
  assert (forall c1 c2 : FetchCall, (calls st ++ [c1]) ++ [c2] = calls st ++ [c1; c2])
    as Hcalls by (intros c1 c2; rewrite <- app_assoc; reflexivity).
  split; [|split; [|split]].
  - intros e He. unfold mediaUrl. rewrite He. reflexivity.
  - intros props Hp. unfold mediaUrl. rewrite Hp. reflexivity.
  - intros Hfalsy. rewrite Hfalsy in Hrun. cbn [negb] in Hrun.
    eexists. split; [exact Hrun | reflexivity].
  - intros Htruthy. rewrite Htruthy in Hrun. cbn [negb] in Hrun. split.
    + intros e Hnet2. rewrite Hnet2 in Hrun.
      eexists. split; [exact Hrun | apply Hcalls].
    + intros mediaResp Hnet2. rewrite Hnet2 in Hrun. split.
      * intros Hok2. rewrite Hok2 in Hrun. cbn [negb] in Hrun.
        eexists. split; [exact Hrun | apply Hcalls].
      * intros Hok2. rewrite Hok2 in Hrun. cbn [negb] in Hrun. split.
        -- intros e Hbytes. rewrite Hbytes in Hrun.
           eexists. split; [exact Hrun | apply Hcalls].
        -- intros bytes Hbytes. rewrite Hbytes in Hrun.
           eexists. split; [exact Hrun | apply Hcalls].
Qed.

(** ** Candidate mapping *)

Lemma toCandidate_object (props : list (string * value)) :
  toCandidate (VObj props) =
    Normal
      {| formatted_address := assoc "formatted_address" props;
         place_id := nullish (assoc "place_id" props) VNull;
         lat := nullish (get_opt (get_opt (assoc "geometry" props) "location") "lat") VNull;
         lng := nullish (get_opt (get_opt (assoc "geometry" props) "location") "lng") VNull;
         address_components := nullish (assoc "address_components" props) VNull |}.
Proof. reflexivity. Qed.

(** The mapping raises only on an array element that is no record at all:
    [null] (or [undefined], which JSON cannot produce). *)
Lemma toCandidate_total (r : value) :
  r <> VNull -> r <> VUndefined -> exists c, toCandidate r = Normal c.
Proof.
  intros Hnull Hundef. destruct r; try congruence; eexists; reflexivity.
Qed.

Lemma toCandidate_null : exists e, toCandidate VNull = Throw e.
Proof. eexists. reflexivity. Qed.

Lemma Array_map_records (results : list value) :
  Forall is_record results ->
  exists candidates, Array_map toCandidate results = Normal candidates.
Proof.
  induction 1 as [|r rest Hr _ [candidates IH]]; [eexists; reflexivity|].
  destruct r; try contradiction. cbn [Array_map]. rewrite toCandidate_object, IH.
  eexists. reflexivity.
Qed.

(** C8. The candidate mapping is total on records: for every object,
    whatever its properties, it yields a candidate.  [lat] is null when
    [geometry], [geometry.location] or [lat] is missing, [lng] likewise,
    and [place_id] and [address_components] are null when missing. *)
Theorem toCandidate_total_on_records (props : list (string * value)) :
  exists c,
    toCandidate (VObj props) = Normal c /\
    (assoc "geometry" props = VUndefined -> lat c = VNull /\ lng c = VNull) /\
    (get_opt (assoc "geometry" props) "location" = VUndefined ->
       lat c = VNull /\ lng c = VNull) /\
    (get_opt (get_opt (assoc "geometry" props) "location") "lat" = VUndefined ->
       lat c = VNull) /\
    (get_opt (get_opt (assoc "geometry" props) "location") "lng" = VUndefined ->
       lng c = VNull) /\
    (assoc "place_id" props = VUndefined -> place_id c = VNull) /\
    (assoc "address_components" props = VUndefined -> address_components c = VNull).
Proof.
  eexists. split; [apply toCandidate_object|]. cbn [lat lng place_id address_components].
  split; [intros ->; split; reflexivity|].
  split; [intros ->; split; reflexivity|].
  split; [intros ->; reflexivity|].
  split; [intros ->; reflexivity|].
  split; intros ->; reflexivity.
Qed.

(** C10. Of the five fields of a candidate, four are defaulted to null
    when the record lacks them (or has them null); [formatted_address] is
    the record's own, so it is [undefined], not null, when the record
    lacks it. *)
Theorem toCandidate_formatted_address_not_defaulted (props : list (string * value)) :
  exists c,
    toCandidate (VObj props) = Normal c /\
    formatted_address c = assoc "formatted_address" props /\
    (assoc "formatted_address" props = VUndefined ->
       formatted_address c = VUndefined /\ formatted_address c <> VNull) /\
    place_id c = nullish (assoc "place_id" props) VNull /\
    lat c = nullish (get_opt (get_opt (assoc "geometry" props) "location") "lat") VNull /\
    lng c = nullish (get_opt (get_opt (assoc "geometry" props) "location") "lng") VNull /\
    address_components c = nullish (assoc "address_components" props) VNull /\
    place_id c <> VUndefined /\ lat c <> VUndefined /\ lng c <> VUndefined /\
    address_components c <> VUndefined.
Proof.
  assert (forall v, nullish v VNull <> VUndefined) as Hn
    by (intros v; destruct v; discriminate).
  eexists. split; [apply toCandidate_object|].
  cbn [formatted_address lat lng place_id address_components].
  split; [reflexivity|].
  split; [intros ->; split; [reflexivity | discriminate]|].
  repeat (split; [first [reflexivity | apply Hn]|]). apply Hn.
Qed.

(** ** The rate limiter over a run of calls *)

Lemma in_window_app (now : Z) (l1 l2 : list Z) :
  in_window now (l1 ++ l2) = in_window now l1 ++ in_window now l2.
Proof. apply filter_app. Qed.

Lemma in_window_later (now now' : Z) (ts : list Z) :
  now <= now' -> in_window now' (in_window now ts) = in_window now' ts.
Proof.
  intros Hle. unfold in_window. induction ts as [|t ts IH]; [reflexivity|].
  rewrite !filter_cons.
  destruct (decide (now - t < WINDOW_MS)) as [Hin|Hout].
  - rewrite filter_cons. destruct (decide (now' - t < WINDOW_MS)); rewrite IH; reflexivity.
  - destruct (decide (now' - t < WINDOW_MS)); [lia | exact IH].
Qed.

Lemma in_window_recent_at (now now' : Z) (arr : list Z) :
  now <= now' -> in_window now' (recent_at now arr) = in_window now' (arr ++ [now]).
Proof.
  intros Hle. unfold recent_at. fold (in_window now arr).
  rewrite !in_window_app, in_window_later by exact Hle. reflexivity.
Qed.

Lemma rateLimit_times_decision (req : NextRequest) (env : Env) (n : nat) :
  monotone (clock env) ->
  forall (st : State) (earlier : list Z),
    (forall now', clock env (clock_reads st) <= now' ->
       in_window now' (default [] (buckets st !! getIp req)) = in_window now' earlier) ->
    fst (rateLimit_times req n env st) =
      Normal
        (if (MAX_REQUESTS <?
               length (in_window (clock env (clock_reads st + n))
                         (earlier ++ map (clock env) (seq (clock_reads st) (S n)))))%nat
         then Some "Rate limit exceeded. Please try again shortly."
         else None).
Proof.
  intros Hmono. induction n as [|m IH]; intros st earlier Hinv.
  - cbn [rateLimit_times]. rewrite rateLimit_run. cbn [fst].
    rewrite Nat.add_0_r. cbn [seq map].
    set (now := clock env (clock_reads st)).
    assert (length (recent_at now (default [] (buckets st !! getIp req)))
            = length (in_window now (earlier ++ [now]))) as ->; [|reflexivity].
    unfold recent_at. fold (in_window now (default [] (buckets st !! getIp req))).
    rewrite (Hinv now) by (unfold now; lia).
    rewrite in_window_app. do 2 f_equal.
    unfold in_window. rewrite filter_cons.
    destruct (decide (now - now < WINDOW_MS)) as [_|Hn]; [reflexivity|].
    exfalso. apply Hn. unfold WINDOW_MS. lia.
  - cbn [rateLimit_times]. unfold bind. rewrite rateLimit_run.
    set (now := clock env (clock_reads st)).
    set (st1 := {| buckets := _; clock_reads := _; calls := _ |}).
    rewrite (IH st1 (earlier ++ [now])).
    + cbn [clock_reads st1]. rewrite <- app_assoc.
      replace (S (clock_reads st) + m)%nat with (clock_reads st + S m)%nat by lia.
      reflexivity.
    + intros now' Hnow'. cbn [clock_reads buckets st1] in *.
      rewrite lookup_insert_eq. cbn [default from_option id].
      assert (now <= now') as Hle.
      { pose proof (Hmono (clock_reads st) (S (clock_reads st))). unfold now. lia. }
      rewrite in_window_recent_at by exact Hle.
      rewrite !in_window_app. f_equal. apply Hinv. exact Hle.
Qed.

(** With a clock that does not run backwards, and starting from a client
    the registry has not seen, the call after [n] earlier ones is rejected
    exactly when more than 30 of the [n + 1] calls fall in the 60,000 ms
    that end at it. *)
Lemma rateLimit_trailing_window (req : NextRequest) (env : Env) (st : State) (n : nat) :
  monotone (clock env) ->
  buckets st !! getIp req = None ->
  exists rl,
    fst (rateLimit_times req n env st) = Normal rl /\
    (truthy_str rl = true <->
     (30 < length (filter (fun t => (clock env (clock_reads st + n) - t < 60000)%Z)
                     (map (clock env) (seq (clock_reads st) (S n)))))%nat).
Proof.
  intros Hmono Hnew.
  pose proof (rateLimit_times_decision req env n Hmono st []) as H.
  rewrite Hnew in H. specialize (H (fun _ _ => eq_refl)).
  rewrite app_nil_l in H. rewrite H. eexists. split; [reflexivity|].
  unfold in_window. change WINDOW_MS with 60000. change MAX_REQUESTS with 30%nat.
  destruct (30 <? _)%nat eqn:E.
  - apply Nat.ltb_lt in E. split; [intros _; exact E | reflexivity].
  - apply Nat.ltb_ge in E. split; [discriminate | lia].
Qed.

Example POST_second_of_two :
  Demo.answer (POST Demo.req_second Demo.env_two st0) =
    Some (NextResponse_json
            (JsonLookup "1600 Amphitheatre Parkway"
               [ {| formatted_address := VStr "1600 Amphitheatre Pkwy";
                    place_id := VStr "X";
                    lat := VNum (Finite (37422 # 1000));
                    lng := VNum (Finite (-122084 # 1000));
                    address_components := VNull |};
                 {| formatted_address := VStr "1600 Amphitheatre Ave";
                    place_id := VStr "Y";
                    lat := VNum (Finite (37422 # 1000));
                    lng := VNum (Finite (-122084 # 1000));
                    address_components := VNull |} ]
               1 Demo.place_X [MULTIPLE_MATCHES; PLACES_NEW] (Some 7)) 200).
Proof. vm_compute. reflexivity. Qed.

Example POST_details_404 :
  Demo.answer (POST Demo.req_plain Demo.env_details_404 st0) =
    Some (NextResponse_json
            (JsonLookup "1600 Amphitheatre Parkway, Mountain View, CA"
               [ {| formatted_address := VStr "1600 Amphitheatre Pkwy";
                    place_id := VStr "X";
                    lat := VNum (Finite (37422 # 1000));
                    lng := VNum (Finite (-122084 # 1000));
                    address_components := VNull |} ]
               0 VNull ["Places v1 details failed with status 404: not found"]
               (Some 7)) 200).
Proof. vm_compute. reflexivity. Qed.

Example GET_photo_json :
  Demo.answer (GET Demo.req_photo Demo.env_photo_json st0) =
    Some (NextResponse_image Demo.jpeg "image/png").
Proof. vm_compute. reflexivity. Qed.

Example GET_photo_redirect :
  Demo.answer (GET Demo.req_photo Demo.env_photo_redirect st0) =
    Some (NextResponse_image Demo.jpeg "image/jpeg").
Proof. vm_compute. reflexivity. Qed.

Example GET_photo_direct :
  Demo.answer (GET Demo.req_photo Demo.env_photo_direct st0) =
    Some (NextResponse_image Demo.jpeg "image/webp").
Proof. vm_compute. reflexivity. Qed.

Example GET_photo_calls :
  calls (snd (GET Demo.req_photo Demo.env_photo_json st0)) =
    [PhotoMediaCall "places/X/photos/abc" "640" None (Some "secret");
     UrlCall (VStr "https://lh3.example/p/1")].
Proof. vm_compute. reflexivity. Qed.

Example getIp_forwarded : getIp Demo.req_second = "203.0.113.7".
Proof. vm_compute. reflexivity. Qed.

Example toCandidate_null_element :
  Array_map toCandidate [Demo.record "A" VNull; VNull] =
    Throw (TypeError "Cannot read properties of null").
Proof. vm_compute. reflexivity. Qed.

(** ** The theorems at concrete requests *)

Lemma POST_selectedIndex_invariant_witness :
  exists query candidates selectedIndex place warnings latencyMs,
    res_body (Demo.response (POST Demo.req_second Demo.env_two st0)) =
      JsonLookup query candidates selectedIndex place warnings latencyMs /\
    (candidates <> [] ->
       0 <= selectedIndex < Z.of_nat (length candidates) /\
       (forall i, supplied_index Demo.req_second = Some i ->
                  0 <= i < Z.of_nat (length candidates) -> selectedIndex = i) /\
       (forall i, supplied_index Demo.req_second = Some i ->
                  ~ (0 <= i < Z.of_nat (length candidates)) -> selectedIndex = 0) /\
       (supplied_index Demo.req_second = None -> selectedIndex = 0)) /\
    (candidates = [] -> selectedIndex = 0 /\ place = VNull).
Proof.
  apply (POST_selectedIndex_invariant Demo.req_second Demo.env_two st0
           (snd (POST Demo.req_second Demo.env_two st0))).
  - vm_compute. reflexivity.
  - vm_compute. reflexivity.
Defined.

Lemma POST_no_match_witness :
  exists st',
    POST Demo.req_nowhere Demo.env_none st0 =
      (Normal {| res_status := 200; res_headers := [];
                 res_body := JsonLookup "zzz-nonexistent-address-zzz" [] 0 VNull
                               ["No match found."] None |},
       st') /\
    calls st' = calls st0 ++ [GeocodeCall "zzz-nonexistent-address-zzz"
                                (GOOGLE_KEY Demo.env_none)] /\
    (forall placeId key mask, PlaceDetailsCall placeId key mask ∈ calls st' ->
                              PlaceDetailsCall placeId key mask ∈ calls st0).
Proof.
  apply (POST_no_match Demo.req_nowhere Demo.env_none st0
           (VObj [("address", VStr "zzz-nonexistent-address-zzz")])
           "zzz-nonexistent-address-zzz" None
           (Demo.json_response Demo.zero_results) Demo.zero_results);
    vm_compute; reflexivity.
Defined.

Lemma POST_enrichment_failure_nonfatal_witness :
  exists res st',
    POST Demo.req_plain Demo.env_details_404 st0 = (Normal res, st') /\
    res_status res = 200 /\
    res_body res =
      JsonLookup "1600 Amphitheatre Parkway, Mountain View, CA" [Demo.candidate_X] 0 VNull
        ([] ++ [default "Place details fetch failed"
                  (message (Error "Places v1 details failed with status 404: not found"))])
        (Some (clock Demo.env_details_404 (clock_reads Demo.st_failed) - 1700000000007)) /\
    calls st' = calls Demo.st_failed.
Proof.
  apply (POST_enrichment_failure_nonfatal Demo.req_plain Demo.env_details_404 st0
           Demo.st_geocoded Demo.st_failed
           "1600 Amphitheatre Parkway, Mountain View, CA" 1700000000007 []
           [Demo.candidate_X] 0 Demo.candidate_X
           (Error "Places v1 details failed with status 404: not found"));
    vm_compute; reflexivity.
Defined.

Lemma GET_rejects_unprefixed_photoName_witness :
  exists res st',
    GET Demo.req_photo_foreign Demo.env_photo_direct st0 = (Normal res, st') /\
    res_status res = 400 /\
    calls st' = calls st0.
Proof.
  apply (GET_rejects_unprefixed_photoName Demo.req_photo_foreign Demo.env_photo_direct st0
           "notplaces/abc");
    vm_compute; reflexivity.
Defined.

Lemma GET_json_wrapped_media_url_witness :
  exists st',
    GET Demo.req_photo Demo.env_photo_json st0 =
      (Normal {| res_status := 200;
                 res_headers := [("content-type", "image/png");
                                 ("cache-control", "public, max-age=86400")];
                 res_body := BufferBody Demo.jpeg |},
       st') /\
    calls st' =
      calls st0 ++
      [photo_call Demo.req_photo "places/X/photos/abc" (GOOGLE_KEY Demo.env_photo_json);
       UrlCall (VStr "https://lh3.example/p/1")].
Proof.
  assert (fst (rateLimit Demo.req_photo Demo.env_photo_json st0) = Normal None) as Hrl
    by (vm_compute; reflexivity).
  assert (truthy_str (GOOGLE_KEY Demo.env_photo_json) = true) as Hkey
    by (vm_compute; reflexivity).
  assert (photoName_param (searchParams Demo.req_photo) = Some "places/X/photos/abc")
    as Hname by (vm_compute; reflexivity).
  assert (startsWith "places/X/photos/abc" "places/" = true) as Hprefix
    by (vm_compute; reflexivity).
  assert (network Demo.env_photo_json (length (calls st0))
            (photo_call Demo.req_photo "places/X/photos/abc"
               (GOOGLE_KEY Demo.env_photo_json))
          = Normal (Demo.json_response (VObj [("photoUri", VStr "https://lh3.example/p/1")])))
    as Hnet by (vm_compute; reflexivity).
  destruct (GET_json_wrapped_media_url Demo.req_photo Demo.env_photo_json st0
              "places/X/photos/abc" _ Hrl Hkey Hname Hprefix Hnet eq_refl eq_refl)
    as (_ & _ & _ & Hfetch).
  destruct (Hfetch eq_refl) as [_ Hresolved].
  destruct (Hresolved (Demo.image_response (Some "image/png") Demo.jpeg) eq_refl)
    as [_ Hok].
  destruct (Hok eq_refl) as [_ Hread].
  exact (Hread Demo.jpeg eq_refl).
Defined.

(** The media call answers 2xx with a JSON body that carries a media URL,
    and the fetch of that URL is rejected: [GET] answers neither 200 nor
    502, it raises. *)
Lemma GET_json_wrapped_media_url_counterexample :
  fst (rateLimit Demo.req_photo Demo.env_photo_unreachable st0) = Normal None /\
  truthy_str (GOOGLE_KEY Demo.env_photo_unreachable) = true /\
  (exists resp,
     network Demo.env_photo_unreachable (length (calls st0))
       (photo_call Demo.req_photo "places/X/photos/abc"
          (GOOGLE_KEY Demo.env_photo_unreachable)) = Normal resp /\
     ok resp = true /\
     includes (default "" (content_type resp)) "application/json" = true /\
     get_opt (catch_default (json resp) VNull) "photoUri" =
       VStr "https://lh3.example/p/1") /\
  fst (GET Demo.req_photo Demo.env_photo_unreachable st0) = Throw (Error "fetch failed") /\
  calls (snd (GET Demo.req_photo Demo.env_photo_unreachable st0)) =
    [photo_call Demo.req_photo "places/X/photos/abc" (GOOGLE_KEY Demo.env_photo_unreachable);
     UrlCall (VStr "https://lh3.example/p/1")] /\
  ~ (exists res st',
       GET Demo.req_photo Demo.env_photo_unreachable st0 = (Normal res, st') /\
       (res_status res = 200 \/ res_status res = 502)).
Proof.
  split; [vm_compute; reflexivity|].
  split; [vm_compute; reflexivity|].
  split.
  { eexists. split; [vm_compute; reflexivity|]. repeat split; vm_compute; reflexivity. }
  split; [vm_compute; reflexivity|].
  split; [vm_compute; reflexivity|].
  intros (res & st' & H & _).
  assert (fst (GET Demo.req_photo Demo.env_photo_unreachable st0) = Normal res) as E
    by (rewrite H; reflexivity).
  vm_compute in E. discriminate E.
Qed.

Lemma POST_multiple_matches_warning_witness :
  exists query candidates selectedIndex place warnings latencyMs,
    res_body (Demo.response (POST Demo.req_second Demo.env_two st0)) =
      JsonLookup query candidates selectedIndex place warnings latencyMs /\
    (forall geoRes geoData results,
       network Demo.env_two (length (calls st0))
         (GeocodeCall query (GOOGLE_KEY Demo.env_two)) = Normal geoRes ->
       json geoRes = Normal geoData ->
       get_prop geoData "results" = Normal (VArr results) ->
       length candidates = length results) /\
    ((1 < length candidates)%nat ->
       "Multiple matches found; showing best match." ∈ warnings) /\
    ((length candidates <= 1)%nat ->
       platform_errors_differ_from Demo.env_two "Multiple matches found; showing best match." ->
       "Multiple matches found; showing best match." ∉ warnings).
Proof.
  apply (POST_multiple_matches_warning Demo.req_second Demo.env_two st0
           (snd (POST Demo.req_second Demo.env_two st0))).
  - vm_compute. reflexivity.
  - vm_compute. reflexivity.
Defined.

Lemma GET_success_cache_control_witness :
  header_get (res_headers (Demo.response (GET Demo.req_photo Demo.env_photo_redirect st0)))
    "cache-control" = Some "public, max-age=86400".
Proof.
  apply (GET_success_cache_control Demo.req_photo Demo.env_photo_redirect st0
           (snd (GET Demo.req_photo Demo.env_photo_redirect st0))).
  - vm_compute. reflexivity.
  - vm_compute. reflexivity.
Defined.

(** The sample upstreams raise no error whose text is the multiple-matches
    warning. *)
Example platform_errors_differ_details_404 :
  platform_errors_differ_from Demo.env_details_404 MULTIPLE_MATCHES.
Proof.
  split.
  - intros n call e H. destruct call; cbn in H; try discriminate H.
    all: injection H as <-; discriminate.
  - intros n call resp e H He. destruct call; cbn in H; try discriminate H.
    + injection H as <-. discriminate He.
    + injection H as <-. cbn in He. injection He as <-. discriminate.
Qed.

(** ** The model at work *)

Example trim_inner_space_kept : trim (String (ascii_of_nat 9) "  a b  ") = "a b".
Proof. vm_compute. reflexivity. Qed.

Example includes_json_with_charset :
  includes "application/json; charset=UTF-8" "application/json" = true.
Proof. vm_compute. reflexivity. Qed.

Example safeParse_blank_address :
  BodySchema_safeParse (VObj [("address", VStr "   ")]) = None.
Proof. vm_compute. reflexivity. Qed.

Example safeParse_fractional_index :
  BodySchema_safeParse (Demo.body_of "a" (VNum (Finite (3 # 2)))) = None.
Proof. vm_compute. reflexivity. Qed.

Example safeParse_negative_index :
  BodySchema_safeParse (Demo.body_of "a" (VNum (Finite (-1 # 1)))) = None.
Proof. vm_compute. reflexivity. Qed.

Example safeParse_null_index :
  BodySchema_safeParse (Demo.body_of "a" VNull) = None.
Proof. vm_compute. reflexivity. Qed.

Example safeParse_large_index :
  BodySchema_safeParse (Demo.body_of " a " (VNum (Finite (14 # 2)))) = Some ("a", Some 7).
Proof. vm_compute. reflexivity. Qed.

(** Thirty calls within the window are admitted, the thirty-first is not. *)
Example rateLimit_thirtieth :
  fst (rateLimit_times Demo.req_plain 29 Demo.env_two st0) = Normal None.
Proof. vm_compute. reflexivity. Qed.

Example rateLimit_thirty_first :
  fst (rateLimit_times Demo.req_plain 30 Demo.env_two st0) =
    Normal (Some "Rate limit exceeded. Please try again shortly.").
Proof. vm_compute. reflexivity. Qed.

(** At one call every three seconds the window never holds more than
    twenty: the hundredth call is admitted and finds twenty timestamps. *)
Example rateLimit_slow_client :
  fst (rateLimit_times Demo.req_plain 99 Demo.env_slow st0) = Normal None /\
  length <$> (buckets (snd (rateLimit_times Demo.req_plain 99 Demo.env_slow st0))
                !! getIp Demo.req_plain) = Some 20%nat.
Proof. vm_compute. split; reflexivity. Qed.

Example POST_rejected_429 :
  Demo.answer
    ((_ <- rateLimit_times Demo.req_plain 29 ;; POST Demo.req_plain) Demo.env_two st0) =
    Some (NextResponse_json
            (JsonError "Rate limit exceeded. Please try again shortly.") 429).
Proof. vm_compute. reflexivity. Qed.

(** * Further properties *)

(** ** Client key and validation *)

Lemma trimEnd_idempotent (s : string) : trimEnd (trimEnd s) = trimEnd s.
Proof.
  induction s as [|a rest IH]; [reflexivity|]. cbn [trimEnd].
  destruct (trimEnd rest) as [|b rest'] eqn:E.
  - destruct (is_white a) eqn:W; [reflexivity|]. cbn [trimEnd]. rewrite W. reflexivity.
  - cbn [trimEnd] in *. rewrite IH. reflexivity.
Qed.

Lemma trimStart_clean (s : string) : starts_clean (trimStart s).
Proof.
  induction s as [|a rest IH]; [exact I|]. cbn [trimStart].
  destruct (is_white a) eqn:W; [exact IH | exact W].
Qed.

Lemma trimStart_of_clean (s : string) : starts_clean s -> trimStart s = s.
Proof. destruct s as [|a rest]; [reflexivity|]. cbn. intros ->. reflexivity. Qed.

Lemma trimEnd_clean (s : string) : starts_clean s -> starts_clean (trimEnd s).
Proof.
  destruct s as [|a rest]; [intros _; exact I|]. cbn [starts_clean trimEnd]. intros W.
  destruct (trimEnd rest); [rewrite W|]; exact W.
Qed.

Lemma trim_idempotent (s : string) : trim (trim s) = trim s.
Proof.
  unfold trim.
  rewrite (trimStart_of_clean (trimEnd (trimStart s)))
    by (apply trimEnd_clean, trimStart_clean).
  apply trimEnd_idempotent.
Qed.

Lemma includes_comma_cons (a : ascii) (s : string) :
  includes (String a s) "," = false -> Ascii.eqb a "," = false /\ includes s "," = false.
Proof.
  cbn [includes]. intros H. apply orb_false_iff in H as [Hp Hi]. split; [|exact Hi].
  destruct (Ascii.eqb a ",") eqn:E; [|reflexivity].
  apply Ascii.eqb_eq in E. subst a. destruct s; discriminate Hp.
Qed.

Lemma split_comma_0_first (h rest : string) :
  includes h "," = false -> split_comma_0 (h ++ "," ++ rest)%string = h.
Proof.
  induction h as [|a h IH]; intros H; [reflexivity|].
  apply includes_comma_cons in H as [Ha Hh].
  simpl. rewrite Ha. f_equal. apply IH. exact Hh.
Qed.

Lemma split_comma_0_whole (h : string) :
  includes h "," = false -> split_comma_0 h = h.
Proof.
  induction h as [|a h IH]; intros H; [reflexivity|].
  apply includes_comma_cons in H as [Ha Hh].
  cbn [split_comma_0]. rewrite Ha. f_equal. apply IH. exact Hh.
Qed.

(** X1. The rate-limit key of a request with a forwarded-for header is the
    first entry of the header with surrounding white space removed:
    whatever follows the first comma has no influence on it. *)
Theorem getIp_first_forwarded_entry (req : NextRequest) (header h rest : string) :
  x_forwarded_for req = Some header ->
  includes h "," = false ->
  (header = h /\ h <> "") \/ header = (h ++ "," ++ rest)%string ->
  getIp req = trim h.
Proof.
  intros Hx Hh Hcase. unfold getIp. rewrite Hx. cbn [truthy_str default from_option id].
  destruct Hcase as [[-> Hne]| ->].
  - destruct h as [|a h]; [congruence|]. cbn [String.eqb negb].
    rewrite split_comma_0_whole by exact Hh. reflexivity.
  - assert (String.eqb (h ++ "," ++ rest) "" = false) as ->
      by (destruct h; reflexivity).
    cbn [negb]. rewrite split_comma_0_first by exact Hh. reflexivity.
Qed.

(** X2. A request with neither a forwarded-for header (or an empty one)
    nor a transport address falls into the bucket "unknown", so two such
    requests are counted together: after the first, the second finds the
    first one's timestamp in its bucket whenever that is still inside the
    window. *)
Theorem rateLimit_unknown_bucket_shared (req1 req2 : NextRequest) (env : Env) (st : State) :
  truthy_str (x_forwarded_for req1) = false -> ip req1 = None ->
  truthy_str (x_forwarded_for req2) = false -> ip req2 = None ->
  clock env (S (clock_reads st)) - clock env (clock_reads st) < 60000 ->
  getIp req1 = "unknown" /\ getIp req2 = "unknown" /\
  exists arr,
    buckets (snd (rateLimit req2 env (snd (rateLimit req1 env st)))) !! "unknown" = Some arr /\
    clock env (clock_reads st) ∈ arr /\ clock env (S (clock_reads st)) ∈ arr.
Proof.
  intros Hx1 Hi1 Hx2 Hi2 Hwin.
  assert (getIp req1 = "unknown") as H1 by (unfold getIp; rewrite Hx1, Hi1; reflexivity).
  assert (getIp req2 = "unknown") as H2 by (unfold getIp; rewrite Hx2, Hi2; reflexivity).
  split; [exact H1|]. split; [exact H2|].
  rewrite !rateLimit_run. cbn [snd buckets clock_reads]. rewrite H1, H2.
  eexists. split; [apply lookup_insert_eq|].
  rewrite lookup_insert_eq. cbn [default from_option id].
  split.
  - apply recent_at_elem. left. split; [|exact Hwin].
    apply recent_at_elem. right. reflexivity.
  - apply recent_at_elem. right. reflexivity.
Qed.

Lemma filter_all {A} (P : A -> Prop) `{forall x, Decision (P x)} (l : list A) :
  (forall x, x ∈ l -> P x) -> filter P l = l.
Proof.
  induction l as [|x l IH]; intros Hall; [reflexivity|].
  rewrite filter_cons. destruct (decide (P x)) as [_|Hn].
  - f_equal. apply IH. intros y Hy. apply Hall. right. exact Hy.
  - exfalso. apply Hn, Hall. left.
Qed.

(** X3. With a clock that does not run backwards, when a client new to
    the registry makes [n + 1] calls all within 60,000 ms, the last one is
    rejected exactly when [n >= 30]: the first thirty calls of a window
    are admitted and all later ones are refused, rejected calls counting
    like admitted ones. *)
Theorem rateLimit_first_thirty_per_window (req : NextRequest) (env : Env) (st : State)
    (n : nat) :
  monotone (clock env) ->
  buckets st !! getIp req = None ->
  clock env (clock_reads st + n) - clock env (clock_reads st) < 60000 ->
  fst (rateLimit_times req n env st) =
    Normal (if (30 <=? n)%nat
            then Some "Rate limit exceeded. Please try again shortly."
            else None).
Proof.
  intros Hmono Hnew Hwin.
  pose proof (rateLimit_times_decision req env n Hmono st []) as H.
  rewrite Hnew in H. specialize (H (fun _ _ => eq_refl)). rewrite app_nil_l in H.
  rewrite H. unfold in_window. rewrite filter_all.
  - rewrite length_map, length_seq. change MAX_REQUESTS with 30%nat.
    destruct (30 <? S n)%nat eqn:E1, (30 <=? n)%nat eqn:E2; try reflexivity.
    + apply Nat.ltb_lt in E1. apply Nat.leb_gt in E2. lia.
    + apply Nat.ltb_ge in E1. apply Nat.leb_le in E2. lia.
  - intros t Ht. apply list_elem_of_fmap in Ht as (i & -> & Hi).
    apply elem_of_seq in Hi.
    pose proof (Hmono (clock_reads st) i). unfold WINDOW_MS. lia.
Qed.

(** X4. A body accepted by the schema yields an address that is non-empty
    and already trimmed (validating it again changes nothing), and an
    index, when present, that is at least 0. *)
Theorem BodySchema_accepts_normalized (body : value) (address : string)
    (selectedIndex : option Z) :
  BodySchema_safeParse body = Some (address, selectedIndex) ->
  address <> "" /\ trim address = address /\
  (forall i, selectedIndex = Some i -> 0 <= i) /\
  BodySchema_safeParse
    (VObj [("address", VStr address);
           ("selectedIndex",
            match selectedIndex with
            | Some i => VNum (Finite (i # 1))
            | None => VUndefined
            end)]) = Some (address, selectedIndex).
Proof.
  intros H. unfold BodySchema_safeParse in H.
  destruct body as [| | | | | |props]; try discriminate.
  destruct (assoc "address" props) as [| | | |a| |]; try discriminate.
  destruct (1 <=? String.length (trim a))%nat eqn:Hlen; try discriminate.
  assert (trim a <> "") as Hne.
  { intros E. rewrite E in Hlen. discriminate. }
  assert (address = trim a /\ (forall i, selectedIndex = Some i -> 0 <= i)) as [-> Hsel].
  { destruct (assoc "selectedIndex" props) as [| | |x| | |]; try discriminate.
    - injection H as <- <-. split; [reflexivity | discriminate].
    - destruct (number_integer x) as [i|]; [|discriminate].
      destruct (0 <=? i) eqn:Hi; [|discriminate].
      injection H as <- <-. split; [reflexivity|].
      intros j [= <-]. apply Z.leb_le. exact Hi. }
  split; [exact Hne|]. split; [apply trim_idempotent|]. split; [exact Hsel|].
  cbn [BodySchema_safeParse assoc String.eqb Ascii.eqb Bool.eqb].
  rewrite trim_idempotent, Hlen.
  destruct selectedIndex as [i|]; [|reflexivity].
  cbn [number_integer Qnum Qden]. rewrite Z.mod_1_r, Z.div_1_r. cbn [Z.eqb].
  specialize (Hsel i eq_refl). apply Z.leb_le in Hsel. rewrite Hsel. reflexivity.
Qed.

(** ** The lookup handler on its way to geocoding *)

Lemma geocode_rejected (req : NextRequest) (env : Env) (st : State) :
  fst (rateLimit req env st) <> Normal None ->
  geocode req env st =
    (Normal (Responded (NextResponse_json
               (JsonError "Rate limit exceeded. Please try again shortly.") 429)),
     after_gate req env st).
Proof.
  intros Hrl. destruct (rateLimit_admits_or_rejects req env st) as [H|H]; [congruence|].
  rewrite rateLimit_run in H. cbn [fst] in H. injection H as H.
  unfold geocode. unfold bind at 1. rewrite rateLimit_run, H. reflexivity.
Qed.

Lemma geocode_unconfigured (req : NextRequest) (env : Env) (st : State) :
  fst (rateLimit req env st) = Normal None ->
  truthy_str (GOOGLE_KEY env) = false ->
  geocode req env st =
    (Normal (Responded (NextResponse_json
               (JsonError "Server is not configured with GOOGLE_MAPS_API_KEY") 500)),
     after_gate req env st).
Proof.
  intros Hrl Hkey. rewrite rateLimit_run in Hrl. cbn [fst] in Hrl. injection Hrl as Hrl.
  unfold geocode. unfold bind at 1. rewrite rateLimit_run, Hrl.
  cbv beta iota zeta delta [bind ret env_key truthy_str].
  fold (truthy_str (GOOGLE_KEY env)). rewrite Hkey. reflexivity.
Qed.

Lemma geocode_invalid (req : NextRequest) (env : Env) (st : State) :
  fst (rateLimit req env st) = Normal None ->
  truthy_str (GOOGLE_KEY env) = true ->
  geocode req env st =
    match req_json req with
    | Throw _ =>
        (Normal (Responded (NextResponse_json (JsonError "Invalid JSON body") 400)),
         after_gate req env st)
    | Normal body =>
        match BodySchema_safeParse body with
        | None =>
            (Normal (Responded (NextResponse_json JsonInvalid 400)), after_gate req env st)
        | Some (address, selectedIndex) =>
            match network env (length (calls st)) (GeocodeCall address (GOOGLE_KEY env)) with
            | Throw e =>
                (Throw e,
                 after_call (GeocodeCall address (GOOGLE_KEY env))
                   (after_clock (after_gate req env st)))
            | Normal _ => geocode req env st
            end
        end
    end.
Proof.
  intros Hrl Hkey.
  destruct (req_json req) as [body|e] eqn:Hbody.
  2:{ rewrite rateLimit_run in Hrl. cbn [fst] in Hrl. injection Hrl as Hrl.
      unfold geocode. unfold bind at 1. rewrite rateLimit_run, Hrl.
      cbv beta iota zeta delta [bind ret env_key truthy_str].
      fold (truthy_str (GOOGLE_KEY env)). rewrite Hkey, Hbody. reflexivity. }
  destruct (BodySchema_safeParse body) as [[address selectedIndex]|] eqn:Hparse.
  2:{ rewrite rateLimit_run in Hrl. cbn [fst] in Hrl. injection Hrl as Hrl.
      unfold geocode. unfold bind at 1. rewrite rateLimit_run, Hrl.
      cbv beta iota zeta delta [bind ret env_key truthy_str].
      fold (truthy_str (GOOGLE_KEY env)). rewrite Hkey, Hbody, Hparse. reflexivity. }
  destruct (network env (length (calls st)) (GeocodeCall address (GOOGLE_KEY env)))
    as [geoRes|e] eqn:Hnet; [reflexivity|].
  rewrite rateLimit_run in Hrl. cbn [fst] in Hrl. injection Hrl as Hrl.
  unfold geocode. unfold bind at 1. rewrite rateLimit_run, Hrl.
  cbv beta iota zeta delta [bind ret env_key truthy_str Date_now fetch].
  fold (truthy_str (GOOGLE_KEY env)). rewrite Hkey, Hbody, Hparse.
  cbn [negb calls buckets clock_reads]. rewrite Hnet. reflexivity.
Qed.

(** X5. A request the rate limiter rejects is answered 429 by both
    handlers, with the rate-limit message, before anything else happens:
    no outbound call is made and the clock is not read again. *)
Theorem handlers_reject_with_429 (req : NextRequest) (env : Env) (st : State) :
  fst (rateLimit req env st) <> Normal None ->
  POST req env st =
    (Normal {| res_status := 429; res_headers := [];
               res_body := JsonError "Rate limit exceeded. Please try again shortly." |},
     after_gate req env st) /\
  GET req env st =
    (Normal {| res_status := 429; res_headers := [];
               res_body := TextBody "Rate limit exceeded. Please try again shortly." |},
     after_gate req env st) /\
  calls (after_gate req env st) = calls st /\
  clock_reads (after_gate req env st) = S (clock_reads st).
Proof.
  intros Hrl. split; [|split; [|split; reflexivity]].
  - rewrite POST_run, (geocode_rejected req env st Hrl). reflexivity.
  - apply GET_rejected.
    destruct (rateLimit_admits_or_rejects req env st) as [H|H]; [congruence | exact H].
Qed.

(** X6. Without a configured key (unset or empty), an admitted request is
    answered 500 by both handlers and no outbound call is made; the
    request has still been counted by the rate limiter. *)
Theorem handlers_unconfigured_500 (req : NextRequest) (env : Env) (st : State) :
  fst (rateLimit req env st) = Normal None ->
  truthy_str (GOOGLE_KEY env) = false ->
  POST req env st =
    (Normal {| res_status := 500; res_headers := [];
               res_body := JsonError "Server is not configured with GOOGLE_MAPS_API_KEY" |},
     after_gate req env st) /\
  GET req env st =
    (Normal {| res_status := 500; res_headers := [];
               res_body := TextBody "Server not configured" |},
     after_gate req env st) /\
  calls (after_gate req env st) = calls st /\
  clock env (clock_reads st) ∈
    default [] (buckets (after_gate req env st) !! getIp req).
Proof.
  intros Hrl Hkey. split; [|split; [|split]].
  - rewrite POST_run, (geocode_unconfigured req env st Hrl Hkey). reflexivity.
  - apply GET_unconfigured; assumption.
  - reflexivity.
  - cbn [after_gate buckets]. rewrite lookup_insert_eq. cbn [default from_option id].
    apply recent_at_elem. right. reflexivity.
Qed.

(** X7. An admitted request to a configured [POST] whose body is not JSON,
    or is JSON that the schema refuses, is answered 400 and no outbound
    call is made. *)
Theorem POST_invalid_body_400 (req : NextRequest) (env : Env) (st : State) :
  fst (rateLimit req env st) = Normal None ->
  truthy_str (GOOGLE_KEY env) = true ->
  (forall body, req_json req = Normal body -> BodySchema_safeParse body = None) ->
  exists res,
    POST req env st = (Normal res, after_gate req env st) /\
    res_status res = 400 /\
    calls (after_gate req env st) = calls st /\
    (forall e, req_json req = Throw e -> res_body res = JsonError "Invalid JSON body") /\
    (forall body, req_json req = Normal body -> res_body res = JsonInvalid).
Proof.
  intros Hrl Hkey Hbad.
  rewrite POST_run, (geocode_invalid req env st Hrl Hkey).
  destruct (req_json req) as [body|e].
  - rewrite (Hbad body eq_refl). eexists. split; [reflexivity|].
    split; [reflexivity|]. split; [reflexivity|].
    split; [intros e He; discriminate He | intros b _; reflexivity].
  - eexists. split; [reflexivity|].
    split; [reflexivity|]. split; [reflexivity|].
    split; [intros e' _; reflexivity | intros b Hb; discriminate Hb].
Qed.

(** X8. When the geocoding upstream answers with a non-success status,
    [POST] answers 502 with a message that carries that status; the
    geocoding call is the only outbound call, so place details are not
    requested. *)
Theorem POST_geocoding_failed_502 (req : NextRequest) (env : Env) (st : State)
    (body : value) (address : string) (selectedIndex : option Z) (geoRes : Response) :
  fst (rateLimit req env st) = Normal None ->
  truthy_str (GOOGLE_KEY env) = true ->
  req_json req = Normal body ->
  BodySchema_safeParse body = Some (address, selectedIndex) ->
  network env (length (calls st)) (GeocodeCall address (GOOGLE_KEY env)) = Normal geoRes ->
  ok geoRes = false ->
  exists st',
    POST req env st =
      (Normal {| res_status := 502; res_headers := [];
                 res_body := JsonError ("Geocoding failed with status "
                                        ++ decimal (status geoRes))%string |},
       st') /\
    calls st' = calls st ++ [GeocodeCall address (GOOGLE_KEY env)].
Proof.
  intros Hrl Hkey Hbody Hparse Hnet Hok.
  eexists. split.
  - rewrite POST_run.
    rewrite (geocode_run req env st body address selectedIndex geoRes) by assumption.
    rewrite Hok. reflexivity.
  - reflexivity.
Qed.

(** X9. Only a non-success status of the geocoding call is turned into a
    response.  If that call is rejected, if its body is not JSON, if the
    JSON is [null], or if the result list has a [null] entry, [POST]
    itself raises, after exactly one outbound call. *)
Theorem POST_geocoding_exceptions_propagate (req : NextRequest) (env : Env) (st : State)
    (body : value) (address : string) (selectedIndex : option Z) :
  fst (rateLimit req env st) = Normal None ->
  truthy_str (GOOGLE_KEY env) = true ->
  req_json req = Normal body ->
  BodySchema_safeParse body = Some (address, selectedIndex) ->
  let st' := after_call (GeocodeCall address (GOOGLE_KEY env))
               (after_clock (after_gate req env st)) in
  let answer := network env (length (calls st)) (GeocodeCall address (GOOGLE_KEY env)) in
  (forall e, answer = Throw e -> POST req env st = (Throw e, st')) /\
  (forall geoRes e, answer = Normal geoRes -> ok geoRes = true -> json geoRes = Throw e ->
     POST req env st = (Throw e, st')) /\
  (forall geoRes, answer = Normal geoRes -> ok geoRes = true -> json geoRes = Normal VNull ->
     exists e, POST req env st = (Throw e, st')) /\
  (forall geoRes geoData before after,
     answer = Normal geoRes -> ok geoRes = true -> json geoRes = Normal geoData ->
     get_prop geoData "results" = Normal (VArr (before ++ VNull :: after)) ->
     Forall is_record before ->
     exists e, POST req env st = (Throw e, st')).
Proof.
  intros Hrl Hkey Hbody Hparse st' answer. unfold answer.
  split; [|split; [|split]].
  - intros e Hnet. rewrite POST_run, (geocode_invalid req env st Hrl Hkey).
    rewrite Hbody, Hparse, Hnet. reflexivity.
  - intros geoRes e Hnet Hok Hjson. rewrite POST_run.
    rewrite (geocode_run req env st body address selectedIndex geoRes) by assumption.
    rewrite Hok, Hjson. reflexivity.
  - intros geoRes Hnet Hok Hjson. rewrite POST_run.
    rewrite (geocode_run req env st body address selectedIndex geoRes) by assumption.
    rewrite Hok, Hjson. eexists. reflexivity.
  - intros geoRes geoData before after Hnet Hok Hjson Hres Hrec. rewrite POST_run.
    rewrite (geocode_run req env st body address selectedIndex geoRes) by assumption.
    rewrite Hok, Hjson, Hres. cbn [Array_isArray negb elements orb].
    assert ((length (before ++ VNull :: after) =? 0)%nat = false) as ->
      by (rewrite length_app; cbn [length]; apply Nat.eqb_neq; lia).
    assert (exists e, Array_map toCandidate (before ++ VNull :: after) = Throw e) as [e ->].
    { clear -Hrec. induction Hrec as [|r rest Hr _ [e IH]].
      - eexists. reflexivity.
      - destruct r; try contradiction. cbn [app Array_map].
        rewrite toCandidate_object. cbn [cbind]. rewrite IH. eexists. reflexivity. }
    eexists. reflexivity.
Qed.

(** ** The lookup handler as a whole *)

(** The state in which [POST] leaves the first part once the geocoding
    call has been made. *)
Lemma geocode_state (req : NextRequest) (env : Env) (st st' : State)
    (c : completion Geocoded) :
  geocode req env st = (c, st') ->
  (st' = after_gate req env st /\
   exists res, c = Normal (Responded res) /\ In (res_status res) [400; 429; 500]) \/
  (exists body address selectedIndex,
     req_json req = Normal body /\
     BodySchema_safeParse body = Some (address, selectedIndex) /\
     st' = after_call (GeocodeCall address (GOOGLE_KEY env))
             (after_clock (after_gate req env st)) /\
     match c with
     | Normal (Responded res) => In (res_status res) [200; 502]
     | Normal (Selected address' _ _ candidates idx) =>
         address' = address /\ candidates <> [] /\
         idx = select_idx selectedIndex (length candidates)
     | Throw _ => True
     end).
Proof.
  intros H.
  destruct (rateLimit_admits_or_rejects req env st) as [Hrl|Hrl].
  2:{ rewrite geocode_rejected in H by congruence. injection H as <- <-.
      left. split; [reflexivity|]. eexists. split; [reflexivity|]. cbn. tauto. }
  destruct (truthy_str (GOOGLE_KEY env)) eqn:Hkey.
  2:{ rewrite (geocode_unconfigured req env st Hrl Hkey) in H. injection H as <- <-.
      left. split; [reflexivity|]. eexists. split; [reflexivity|]. cbn. tauto. }
  pose proof (geocode_invalid req env st Hrl Hkey) as Hinv.
  destruct (req_json req) as [body|e] eqn:Hbody.
  2:{ rewrite Hinv in H. injection H as <- <-.
      left. split; [reflexivity|]. eexists. split; [reflexivity|]. cbn. tauto. }
  destruct (BodySchema_safeParse body) as [[address selectedIndex]|] eqn:Hparse.
  2:{ rewrite Hinv in H. injection H as <- <-.
      left. split; [reflexivity|]. eexists. split; [reflexivity|]. cbn. tauto. }
  right. exists body, address, selectedIndex.
  split; [first [reflexivity | assumption]|]. split; [first [reflexivity | assumption]|].
  destruct (network env (length (calls st)) (GeocodeCall address (GOOGLE_KEY env)))
    as [geoRes|e] eqn:Hnet.
  2:{ rewrite Hinv in H. injection H as <- <-. split; [reflexivity | exact I]. }
  clear Hinv.
  rewrite (geocode_run req env st body address selectedIndex geoRes) in H by assumption.
  injection H as <- <-. split; [reflexivity|].
  destruct (ok geoRes); [|cbn; tauto].
  destruct (json geoRes) as [geoData|e]; [|exact I].
  destruct (get_prop geoData "results") as [results|e]; [|exact I].
  destruct (negb (Array_isArray results) || (length (elements results) =? 0)%nat) eqn:He;
    [cbn; tauto|].
  destruct (Array_map toCandidate (elements results)) as [candidates|e] eqn:Hmap; [|exact I].
  split; [reflexivity|]. split; [|reflexivity].
  apply orb_false_iff in He as [_ He]. apply Nat.eqb_neq in He.
  eapply Array_map_nonempty; [exact Hmap|]. intros E. rewrite E in He. apply He. reflexivity.
Qed.

(** The second part of [POST] always answers 200. *)
Lemma enrich_state (address : string) (started : Z) (warnings : list string)
    (candidates : list Candidate) (selectedIndex : option Z)
    (env : Env) (st st' : State) (c : completion NextResponse) :
  candidates <> [] ->
  enrich address started warnings candidates
    (select_idx selectedIndex (length candidates)) env st = (c, st') ->
  exists res chosen,
    c = Normal res /\ res_status res = 200 /\
    candidates !! Z.to_nat (select_idx selectedIndex (length candidates)) = Some chosen /\
    buckets st' = buckets st /\
    (truthy (place_id chosen) = false /\ calls st' = calls st \/
     truthy (place_id chosen) = true /\
     calls st' = calls st ++ [PlaceDetailsCall (place_id chosen) (GOOGLE_KEY env)
                                PLACE_FIELD_MASK]).
Proof.
  intros Hne H.
  destruct (lookup_select_idx candidates selectedIndex Hne) as [chosen Hchosen].
  rewrite (enrich_run _ _ _ _ _ chosen env st Hchosen) in H.
  destruct (truthy (place_id chosen)) eqn:Hpid.
  - rewrite fetchPlaceDetailsNew_run in H.
    destruct (match network env _ _ with Normal _ => _ | Throw _ => _ end) as [place|e];
      injection H as <- <-; eexists _, chosen;
      (split; [reflexivity|]); (split; [reflexivity|]); (split; [exact Hchosen|]);
      (split; [reflexivity|]); right; (split; [exact Hpid | reflexivity]).
  - injection H as <- <-. eexists _, chosen.
    split; [reflexivity|]. split; [reflexivity|]. split; [exact Hchosen|].
    split; [reflexivity|]. left. split; [exact Hpid | reflexivity].
Qed.

Lemma POST_outcome (req : NextRequest) (env : Env) (st st' : State)
    (c : completion NextResponse) :
  POST req env st = (c, st') ->
  buckets st' = buckets (after_gate req env st) /\
  (forall res, c = Normal res -> In (res_status res) [200; 400; 429; 500; 502]) /\
  (calls st' = calls st \/
   exists body address selectedIndex,
     req_json req = Normal body /\
     BodySchema_safeParse body = Some (address, selectedIndex) /\
     (calls st' = calls st ++ [GeocodeCall address (GOOGLE_KEY env)] \/
      exists placeId,
        truthy placeId = true /\
        calls st' = calls st ++ [GeocodeCall address (GOOGLE_KEY env);
                                 PlaceDetailsCall placeId (GOOGLE_KEY env)
                                   PLACE_FIELD_MASK])).
Proof.
  intros H. rewrite POST_run in H.
  destruct (geocode req env st) as [g st1] eqn:Hgeo.
  apply geocode_state in Hgeo.
  destruct Hgeo as [[-> (res & -> & Hst)]|(body & address & sel & Hb & Hp & -> & Hc)].
  - injection H as <- <-. split; [reflexivity|]. split; [|left; reflexivity].
    intros r [= <-]. cbn in *. tauto.
  - destruct g as [[res|address' started warnings candidates idx]|e].
    + injection H as <- <-. split; [reflexivity|]. split.
      * intros r [= <-]. cbn in *. tauto.
      * right. exists body, address, sel. repeat (split; [assumption|]).
        left. reflexivity.
    + destruct Hc as (-> & Hne & ->).
      apply enrich_state in H; [|exact Hne].
      destruct H as (res & chosen & -> & H200 & Hchosen & Hbuckets & Hcalls).
      split; [exact Hbuckets|]. split.
      * intros r [= <-]. rewrite H200. cbn. tauto.
      * right. exists body, address, sel. repeat (split; [assumption|]).
        destruct Hcalls as [[_ Hcalls]|[Hpid Hcalls]].
        -- left. exact Hcalls.
        -- right. exists (place_id chosen). split; [exact Hpid|].
           rewrite Hcalls. cbn [calls after_call after_clock after_gate].
           rewrite <- app_assoc. reflexivity.
    + injection H as <- <-. split; [reflexivity|]. split; [discriminate|].
      right. exists body, address, sel. repeat (split; [assumption|]).
      left. reflexivity.
Qed.

(** X10. Whatever the request and the upstreams, a response of [POST] has
    one of the statuses 200, 400, 429, 500 and 502. *)
Theorem POST_status_codes (req : NextRequest) (env : Env) (st st' : State)
    (res : NextResponse) :
  POST req env st = (Normal res, st') ->
  res_status res = 200 \/ res_status res = 400 \/ res_status res = 429 \/
  res_status res = 500 \/ res_status res = 502.
Proof.
  intros H. apply POST_outcome in H as (_ & Hst & _).
  specialize (Hst res eq_refl). cbn in Hst. intuition.
Qed.

(** X11. Whatever its outcome, a response or an exception, one run of
    [POST] records exactly one timestamp in the rate limiter and makes at
    most two outbound calls: none, or the geocoding call for the
    validated address, or that call followed by one place-details call
    with the fixed field mask for a truthy place id.  Both calls carry the
    configured key; nothing is fetched from any other address. *)
Theorem POST_outbound_calls (req : NextRequest) (env : Env) (st st' : State)
    (c : completion NextResponse) :
  POST req env st = (c, st') ->
  buckets st' = buckets (after_gate req env st) /\
  (calls st' = calls st \/
   exists body address selectedIndex,
     req_json req = Normal body /\
     BodySchema_safeParse body = Some (address, selectedIndex) /\
     (calls st' = calls st ++ [GeocodeCall address (GOOGLE_KEY env)] \/
      exists placeId,
        truthy placeId = true /\
        calls st' = calls st ++ [GeocodeCall address (GOOGLE_KEY env);
                                 PlaceDetailsCall placeId (GOOGLE_KEY env)
                                   PLACE_FIELD_MASK])).
Proof.
  intros H. apply POST_outcome in H as (Hb & _ & Hc). split; assumption.
Qed.

(** X12. When the chosen candidate has no usable place id (null, empty,
    or otherwise falsy), [POST] answers 200 with a null place and the
    warning that place details are not available, and makes no
    place-details call. *)
Theorem POST_without_place_id (req : NextRequest) (env : Env) (st st1 : State)
    (address : string) (started : Z) (warnings : list string)
    (candidates : list Candidate) (idx : Z) (chosen : Candidate) :
  geocode req env st = (Normal (Selected address started warnings candidates idx), st1) ->
  candidates !! Z.to_nat idx = Some chosen ->
  truthy (place_id chosen) = false ->
  exists st',
    POST req env st =
      (Normal {| res_status := 200; res_headers := [];
                 res_body :=
                   JsonLookup address candidates idx VNull
                     (warnings ++ ["No place_id from geocoding; place details not available."])
                     (Some (clock env (clock_reads st1) - started)) |},
       st') /\
    calls st' = calls st ++ [GeocodeCall address (GOOGLE_KEY env)].
Proof.
  intros Hgeo Hchosen Hpid. eexists. split.
  - rewrite POST_run, Hgeo. rewrite (enrich_run _ _ _ _ _ chosen) by exact Hchosen.
    rewrite Hpid. reflexivity.
  - apply geocode_inv in Hgeo.
    destruct Hgeo as (body & sel & geoRes & geoData & results & _ & _ & _ & _ & _ & _ & _
                      & _ & _ & _ & _ & ->).
    reflexivity.
Qed.


(** ** What a 200 response of the lookup handler holds *)

Lemma Enriched_state (env : Env) (st st1 : State) (chosen : Candidate)
    (place : value) (warning : string) :
  Enriched env st chosen place warning st1 ->
  clock_reads st1 = clock_reads st /\
  (place <> VNull -> warning = PLACES_NEW).
Proof.
  intros [Hpid|place' st1' Hpid Hfetch|e st1' Hpid Hfetch].
  - split; [reflexivity | congruence].
  - rewrite fetchPlaceDetailsNew_run in Hfetch. injection Hfetch as _ <-.
    split; reflexivity.
  - rewrite fetchPlaceDetailsNew_run in Hfetch. injection Hfetch as _ <-.
    split; [reflexivity | congruence].
Qed.

Lemma Array_map_Forall2 {A B} (f : A -> completion B) (arr : list A) (out : list B) :
  Array_map f arr = Normal out -> Forall2 (fun x y => f x = Normal y) arr out.
Proof.
  revert out. induction arr as [|x rest IH]; intros out H; cbn [Array_map] in H.
  - injection H as <-. constructor.
  - destruct (f x) as [y|e] eqn:Hx; cbn [cbind] in H; [|discriminate].
    destruct (Array_map f rest) as [ys|e]; cbn [cbind] in H; [|discriminate].
    injection H as <-. constructor; [exact Hx | apply IH; reflexivity].
Qed.

(** X14. The elapsed time in a 200 response with candidates is the
    difference between the clock reading taken after enrichment and the
    one taken after validation, whether or not place details were
    fetched; with a clock that does not run backwards it is never
    negative.  The empty-result response carries no elapsed time. *)
Theorem POST_latency (req : NextRequest) (env : Env) (st st' : State)
    (res : NextResponse) :
  POST req env st = (Normal res, st') ->
  res_status res = 200 ->
  exists query candidates selectedIndex place warnings latencyMs,
    res_body res = JsonLookup query candidates selectedIndex place warnings latencyMs /\
    (candidates = [] -> latencyMs = None) /\
    (candidates <> [] ->
       latencyMs = Some (clock env (S (S (clock_reads st))) - clock env (S (clock_reads st))) /\
       clock_reads st' = S (S (S (clock_reads st))) /\
       (monotone (clock env) -> exists d, latencyMs = Some d /\ 0 <= d)).
Proof.
  intros H H200. apply POST_inv in H; [|exact H200].
  destruct H as [body address sel geoRes geoData results Hb Hp Hn Hj Hr He
                |body address sel geoRes geoData results candidates chosen place warning st1
                   Hb Hp Hn Hj Hr Hne Hmap Hchosen Henr].
  - eexists address, [], 0, VNull, _, _. split; [reflexivity|].
    split; [reflexivity | congruence].
  - eexists address, candidates, _, place, _, _. split; [reflexivity|].
    apply Enriched_state in Henr as [Hreads _].
    cbn [clock_reads after_call after_clock after_gate] in Hreads.
    split.
    + intros ->. apply Array_map_length in Hmap. destruct results; [congruence|discriminate].
    + intros _. rewrite Hreads. split; [reflexivity|]. split.
      * cbn [clock_reads after_clock]. rewrite Hreads. reflexivity.
      * intros Hmono. eexists. split; [reflexivity|].
        pose proof (Hmono (S (clock_reads st)) (S (S (clock_reads st)))). lia.
Qed.

(** X15. In a 200 response the candidates are the upstream results in
    upstream order: the two lists correspond position by position, each
    candidate being the mapping of the result at its position. *)
Theorem POST_candidates_follow_results (req : NextRequest) (env : Env) (st st' : State)
    (res : NextResponse) :
  POST req env st = (Normal res, st') ->
  res_status res = 200 ->
  exists query candidates selectedIndex place warnings latencyMs,
    res_body res = JsonLookup query candidates selectedIndex place warnings latencyMs /\
    forall geoRes geoData results,
      network env (length (calls st)) (GeocodeCall query (GOOGLE_KEY env)) = Normal geoRes ->
      json geoRes = Normal geoData ->
      get_prop geoData "results" = Normal (VArr results) ->
      Forall2 (fun r c => toCandidate r = Normal c) results candidates.
Proof.
  intros H H200. apply POST_inv in H; [|exact H200].
  destruct H as [body address sel geoRes' geoData' results' Hb Hp Hn Hj Hr He
                |body address sel geoRes' geoData' results' candidates chosen place warning
                   st1 Hb Hp Hn Hj Hr Hne Hmap Hchosen Henr].
  - eexists address, [], 0, VNull, _, _. split; [reflexivity|].
    intros geoRes geoData results Hnet Hjson Hres.
    rewrite Hnet in Hn. injection Hn as <-.
    rewrite Hjson in Hj. injection Hj as <-.
    rewrite Hres in Hr. injection Hr as <-.
    destruct He as [He|He]; [discriminate|]. cbn in He. rewrite He. constructor.
  - eexists address, candidates, _, place, _, _. split; [reflexivity|].
    intros geoRes geoData results Hnet Hjson Hres.
    rewrite Hnet in Hn. injection Hn as <-.
    rewrite Hjson in Hj. injection Hj as <-.
    rewrite Hres in Hr. injection Hr as <-.
    apply Array_map_Forall2. exact Hmap.
Qed.

(** X16. A 200 response always carries at least one warning and at most
    two.  With no candidates it is the no-match warning alone; with
    candidates the last warning reports how enrichment ended, and a place
    that is not null is always accompanied by the data-source caveat. *)
Theorem POST_warnings_shape (req : NextRequest) (env : Env) (st st' : State)
    (res : NextResponse) :
  POST req env st = (Normal res, st') ->
  res_status res = 200 ->
  exists query candidates selectedIndex place warnings latencyMs,
    res_body res = JsonLookup query candidates selectedIndex place warnings latencyMs /\
    (1 <= length warnings <= 2)%nat /\
    (candidates = [] -> warnings = ["No match found."]) /\
    (place <> VNull ->
       last warnings =
         Some "Places details returned from Places API (New); attribute availability varies by place.").
Proof.
  intros H H200. apply POST_inv in H; [|exact H200].
  destruct H as [body address sel geoRes geoData results Hb Hp Hn Hj Hr He
                |body address sel geoRes geoData results candidates chosen place warning st1
                   Hb Hp Hn Hj Hr Hne Hmap Hchosen Henr].
  - eexists address, [], 0, VNull, _, _. split; [reflexivity|].
    split; [cbn; lia|]. split; [reflexivity | congruence].
  - eexists address, candidates, _, place, _, _. split; [reflexivity|].
    apply Enriched_state in Henr as [_ Hplace].
    split; [|split].
    + rewrite length_app. destruct (1 <? length candidates)%nat; cbn; lia.
    + intros ->. apply Array_map_length in Hmap. destruct results; [congruence|discriminate].
    + intros Hp'. rewrite last_snoc, (Hplace Hp'). reflexivity.
Qed.

(** X17. The query echoed in a 200 response is the address of the request
    body with surrounding white space removed, and is never empty. *)
Theorem POST_query_is_trimmed_address (req : NextRequest) (env : Env) (st st' : State)
    (res : NextResponse) :
  POST req env st = (Normal res, st') ->
  res_status res = 200 ->
  exists props a query candidates selectedIndex place warnings latencyMs,
    req_json req = Normal (VObj props) /\
    assoc "address" props = VStr a /\
    res_body res = JsonLookup query candidates selectedIndex place warnings latencyMs /\
    query = trim a /\ query <> "".
Proof.
  assert (forall body address sel,
            BodySchema_safeParse body = Some (address, sel) ->
            exists props a, body = VObj props /\ assoc "address" props = VStr a /\
                            address = trim a /\ address <> "") as Haddr.
  { intros body address sel Hp. unfold BodySchema_safeParse in Hp.
    destruct body as [| | | | | |props]; try discriminate.
    destruct (assoc "address" props) as [| | | |a| |] eqn:Ha; try discriminate.
    destruct (1 <=? String.length (trim a))%nat eqn:Hlen; try discriminate.
    assert (address = trim a) as ->.
    { destruct (assoc "selectedIndex" props) as [| | |x| | |]; try discriminate.
      - congruence.
      - destruct (number_integer x) as [i|]; [|discriminate].
        destruct (0 <=? i); congruence. }
    exists props, a. repeat split; try assumption.
    intros E. rewrite E in Hlen. discriminate. }
  intros H H200. apply POST_inv in H; [|exact H200].
  destruct H as [body address sel geoRes geoData results Hb Hp Hn Hj Hr He
                |body address sel geoRes geoData results candidates chosen place warning st1
                   Hb Hp Hn Hj Hr Hne Hmap Hchosen Henr].
  - destruct (Haddr _ _ _ Hp) as (props & a & -> & Ha & -> & Hne).
    eexists props, a, _, _, _, _, _, _. repeat split; first [eassumption | reflexivity].
  - destruct (Haddr _ _ _ Hp) as (props & a & -> & Ha & -> & Hne').
    eexists props, a, _, _, _, _, _, _. repeat split; first [eassumption | reflexivity].
Qed.

(** ** Place details *)


(** ** The photo proxy as a whole *)

Lemma GET_outcome (req : NextRequest) (env : Env) (st st' : State)
    (c : completion NextResponse) :
  GET req env st = (c, st') ->
  buckets st' = buckets (after_gate req env st) /\
  (forall res, c = Normal res ->
     In (res_status res) [200; 400; 429; 500; 502] /\
     (res_status res = 200 ->
      exists contentType bytes,
        header_get (res_headers res) "content-type" = Some contentType /\
        res_body res = BufferBody bytes)) /\
  (calls st' = calls st \/
   exists photoName,
     photoName_param (searchParams req) = Some photoName /\
     startsWith photoName "places/" = true /\
     (calls st' = calls st ++ [photo_call req photoName (GOOGLE_KEY env)] \/
      exists url,
        calls st' = calls st ++ [photo_call req photoName (GOOGLE_KEY env); UrlCall url])).
Proof.
  intros H.
  destruct (rateLimit_admits_or_rejects req env st) as [Hrl|Hrl].
  2:{ rewrite (GET_rejected req env st Hrl) in H. injection H as <- <-.
      split; [reflexivity|]. split; [|left; reflexivity].
      intros r [= <-]. split; [cbn; tauto|]. intros E. discriminate E. }
  destruct (truthy_str (GOOGLE_KEY env)) eqn:Hkey.
  2:{ rewrite (GET_unconfigured req env st Hrl Hkey) in H. injection H as <- <-.
      split; [reflexivity|]. split; [|left; reflexivity].
      intros r [= <-]. split; [cbn; tauto|]. intros E. discriminate E. }
  rewrite (GET_run req env st Hrl Hkey) in H. cbv zeta in H.
  destruct (photoName_param (searchParams req)) as [photoName|] eqn:Hname.
  2:{ injection H as <- <-. split; [reflexivity|]. split; [|left; reflexivity].
      intros r [= <-]. split; [cbn; tauto|]. intros E. discriminate E. }
  destruct (String.eqb photoName "").
  { injection H as <- <-. split; [reflexivity|]. split; [|left; reflexivity].
    intros r [= <-]. split; [cbn; tauto|]. intros E. discriminate E. }
  destruct (startsWith photoName "places/") eqn:Hprefix; cbn [negb] in H.
  2:{ injection H as <- <-. split; [reflexivity|]. split; [|left; reflexivity].
      intros r [= <-]. split; [cbn; tauto|]. intros E. discriminate E. }
  repeat match type of H with
         | context [match ?x with _ => _ end] => destruct x
         end;
    injection H as <- <-;
    (split; [reflexivity|]);
    (split;
     [intros r Hr; first [discriminate Hr | injection Hr as <-];
      (split; [cbn; tauto|]); intros E;
      first [discriminate E | eexists _, _; split; reflexivity]
     |right; exists photoName; (split; [first [reflexivity | assumption]|]);
      (split; [first [reflexivity | assumption]|]);
      first [left; reflexivity
            |right; eexists; cbn [calls after_call after_gate];
             rewrite <- app_assoc; reflexivity]]).
Qed.

(** X19. Whatever the request and the upstream, a response of [GET] has
    one of the statuses 200, 400, 429, 500 and 502. *)
Theorem GET_status_codes (req : NextRequest) (env : Env) (st st' : State)
    (res : NextResponse) :
  GET req env st = (Normal res, st') ->
  res_status res = 200 \/ res_status res = 400 \/ res_status res = 429 \/
  res_status res = 500 \/ res_status res = 502.
Proof.
  intros H. apply GET_outcome in H as (_ & Hst & _).
  destruct (Hst res eq_refl) as [Hin _]. cbn in Hin. intuition.
Qed.

(** X20. Whatever its outcome, one run of [GET] records exactly one
    timestamp in the rate limiter and makes at most two outbound calls.
    The first, if any, is the media call for the requested photo name,
    and it is only ever made for a name that starts with "places/"; a
    second call only follows the first. *)
Theorem GET_outbound_calls (req : NextRequest) (env : Env) (st st' : State)
    (c : completion NextResponse) :
  GET req env st = (c, st') ->
  buckets st' = buckets (after_gate req env st) /\
  (calls st' = calls st \/
   exists photoName,
     photoName_param (searchParams req) = Some photoName /\
     startsWith photoName "places/" = true /\
     (calls st' = calls st ++ [photo_call req photoName (GOOGLE_KEY env)] \/
      exists url,
        calls st' = calls st ++ [photo_call req photoName (GOOGLE_KEY env); UrlCall url])).
Proof.
  intros H. apply GET_outcome in H as (Hb & _ & Hc). split; assumption.
Qed.

(** X21. Every 200 response of [GET] is a binary body with a content-type
    header.  Both come from the answer to the last outbound call of the
    run: the body is that answer's bytes, and the header is that answer's
    content type when it sent one, image/jpeg otherwise. *)
Theorem GET_success_has_content_type (req : NextRequest) (env : Env) (st st' : State)
    (res : NextResponse) :
  GET req env st = (Normal res, st') ->
  res_status res = 200 ->
  exists n call answer bytes,
    calls st' !! n = Some call /\
    length (calls st') = S n /\
    network env n call = Normal answer /\
    arrayBuffer answer = Normal bytes /\
    res_body res = BufferBody bytes /\
    header_get (res_headers res) "content-type" =
      Some (default "image/jpeg" (content_type answer)) /\
    (forall contentType, content_type answer = Some contentType ->
       header_get (res_headers res) "content-type" = Some contentType) /\
    (content_type answer = None ->
       header_get (res_headers res) "content-type" = Some "image/jpeg").
Proof.
  intros H H200.
  destruct (rateLimit_admits_or_rejects req env st) as [Hrl|Hrl].
  2:{ rewrite (GET_rejected req env st Hrl) in H. injection H as <- _. discriminate. }
  destruct (truthy_str (GOOGLE_KEY env)) eqn:Hkey.
  2:{ rewrite (GET_unconfigured req env st Hrl Hkey) in H. injection H as <- _.
      discriminate. }
  rewrite (GET_run req env st Hrl Hkey) in H. cbv zeta in H.
  assert (forall (answer : Response) (bytes : list Byte.byte),
            (forall contentType, content_type answer = Some contentType ->
               header_get
                 (res_headers
                    (NextResponse_image bytes (default "image/jpeg" (content_type answer))))
                 "content-type" = Some contentType) /\
            (content_type answer = None ->
               header_get
                 (res_headers
                    (NextResponse_image bytes (default "image/jpeg" (content_type answer))))
                 "content-type" = Some "image/jpeg")) as Hct
    by (intros answer bytes; split; [intros ct ->|intros ->]; reflexivity).
  repeat match type of H with
         | context [match ?x with _ => _ end] => destruct x eqn:?
         end;
    first
      [ discriminate H
      | injection H as <- <-;
        first
          [ discriminate H200
          | eexists (length (calls st)), _, _, _;
            (split; [cbn [calls after_call after_gate];
                     apply list_lookup_middle; reflexivity|]);
            (split; [cbn [calls after_call after_gate];
                     rewrite length_app; cbn [length]; lia|]);
            (split; [eassumption|]); (split; [eassumption|]);
            (split; [reflexivity|]); (split; [reflexivity|]); apply Hct
          | eexists (S (length (calls st))), _, _, _;
            (split; [cbn [calls after_call after_gate];
                     apply list_lookup_middle; rewrite length_app; cbn [length]; lia|]);
            (split; [cbn [calls after_call after_gate];
                     rewrite !length_app; cbn [length]; lia|]);
            (split; [eassumption|]); (split; [eassumption|]);
            (split; [reflexivity|]); (split; [reflexivity|]); apply Hct ] ].
Qed.



(** X24. When the media call answers with a status that is neither 2xx
    nor 3xx, [GET] answers 502 after that single outbound call, whatever
    the content type or the body of the answer. *)
Theorem GET_upstream_failure_502 (req : NextRequest) (env : Env) (st : State)
    (photoName : string) (resp : Response) :
  fst (rateLimit req env st) = Normal None ->
  truthy_str (GOOGLE_KEY env) = true ->
  photoName_param (searchParams req) = Some photoName ->
  startsWith photoName "places/" = true ->
  network env (length (calls st)) (photo_call req photoName (GOOGLE_KEY env)) = Normal resp ->
  status resp < 200 \/ 400 <= status resp ->
  exists st',
    GET req env st = (Normal (NextResponse_text "Failed to fetch photo" 502), st') /\
    calls st' = calls st ++ [photo_call req photoName (GOOGLE_KEY env)].
Proof.
  intros Hrl Hkey Hname Hprefix Hnet Hstatus.
  assert (String.eqb photoName "" = false) as Hne
    by (destruct photoName; [discriminate Hprefix | reflexivity]).
  assert (ok resp = false) as Hok.
  { unfold ok. apply andb_false_iff.
    destruct Hstatus; [left; apply Z.leb_gt | right; apply Z.leb_gt]; lia. }
  assert ((300 <=? status resp) && (status resp <? 400) = false) as H3xx.
  { apply andb_false_iff.
    destruct Hstatus; [left; apply Z.leb_gt | right; apply Z.ltb_ge]; lia. }
  pose proof (GET_run req env st Hrl Hkey) as Hrun.
  rewrite Hname, Hne, Hprefix in Hrun. cbv zeta in Hrun. cbn [negb] in Hrun.
  rewrite Hnet, Hok, H3xx in Hrun. cbn [andb negb] in Hrun.
  eexists. split; [exact Hrun | reflexivity].
Qed.

(** X25. The photo name is the first of the parameters photoName, name
    and photoRef that is present, even when it is present and empty: an
    admitted, configured request whose first present parameter is empty,
    or that has none of the three, is answered 400 "photoName required"
    without any outbound call.  In particular an empty photoName hides a
    valid name. *)
Theorem GET_photoName_required (req : NextRequest) (env : Env) (st : State) :
  fst (rateLimit req env st) = Normal None ->
  truthy_str (GOOGLE_KEY env) = true ->
  searchParams_get (searchParams req) "photoName" = Some "" \/
  searchParams_get (searchParams req) "photoName" = None /\
  (searchParams_get (searchParams req) "name" = Some "" \/
   searchParams_get (searchParams req) "name" = None /\
   (searchParams_get (searchParams req) "photoRef" = Some "" \/
    searchParams_get (searchParams req) "photoRef" = None)) ->
  GET req env st =
    (Normal {| res_status := 400; res_headers := [];
               res_body := TextBody "photoName required" |},
     after_gate req env st) /\
  calls (after_gate req env st) = calls st.
Proof.
  intros Hrl Hkey Hcase. split; [|reflexivity].
  rewrite (GET_run req env st Hrl Hkey). cbv zeta. unfold photoName_param.
  destruct Hcase as [->|[-> [->|[-> [->| ->]]]]]; reflexivity.
Qed.

(** ** The page and the route together *)

(** X26. For every 200 answer of [POST] the page's selected candidate is
    null exactly when the answer has no candidates; otherwise it is the
    candidate at the answered index, which exists. *)
Theorem selectedCandidate_of_answer (req : NextRequest) (env : Env) (st st' : State)
    (res : NextResponse) :
  POST req env st = (Normal res, st') ->
  res_status res = 200 ->
  exists data,
    LookupResponse_of (res_body res) = Some data /\
    (selectedCandidate (Some data) = None <-> lr_candidates data = []) /\
    (lr_candidates data <> [] ->
       exists chosen,
         selectedCandidate (Some data) = Some chosen /\
         lr_candidates data !! Z.to_nat (lr_selectedIndex data) = Some chosen /\
         (lr_place data <> VNull -> truthy (place_id chosen) = true)).
Proof.
  intros H H200. apply POST_inv in H; [|exact H200].
  destruct H as [body address sel geoRes geoData results Hb Hp Hn Hj Hr He
                |body address sel geoRes geoData results candidates chosen place warning st1
                   Hb Hp Hn Hj Hr Hne Hmap Hchosen Henr].
  - eexists. split; [reflexivity|]. cbn. split; [tauto | congruence].
  - eexists. split; [reflexivity|].
    cbn [selectedCandidate lr_candidates lr_selectedIndex lr_place].
    assert (candidates <> []) as Hc by (eapply Array_map_nonempty; eassumption).
    assert (0 < length candidates)%nat as Hlen
      by (destruct candidates; [congruence | cbn; lia]).
    pose proof (select_idx_range sel (length candidates) Hlen) as [Hge _].
    apply Z.leb_le in Hge. rewrite Hge, Hchosen.
    split; [split; [discriminate | congruence]|].
    intros _. exists chosen. split; [reflexivity|]. split; [reflexivity|].
    intros Hplace. destruct Henr as [Hpid|place' st1' Hpid Hfetch|e st1' Hpid Hfetch];
      [congruence | exact Hpid | congruence].
Qed.

(** X27. The Submit button and the route's schema agree on the address:
    for an index that is not negative, the body the page sends is
    accepted, with the trimmed address and that index, exactly when the
    button is enabled for an idle page; for a blank address it is
    refused. *)
Theorem submit_enabled_iff_body_accepted (address : string) (idxOverride : option Z)
    (selectedIndex : Z) :
  0 <= default selectedIndex idxOverride ->
  (submit_disabled false address = false ->
     BodySchema_safeParse (submit_body address idxOverride selectedIndex) =
       Some (trim address, Some (default selectedIndex idxOverride))) /\
  (submit_disabled false address = true ->
     BodySchema_safeParse (submit_body address idxOverride selectedIndex) = None) /\
  (forall loading, submit_disabled loading address = false -> trim address <> "").
Proof.
  intros Hidx. unfold submit_disabled, submit_body.
  cbn [orb truthy BodySchema_safeParse assoc String.eqb Ascii.eqb Bool.eqb].
  assert (forall s : string, (1 <=? String.length s)%nat = negb (String.eqb s "")) as Hlen
    by (intros s; destruct s; reflexivity).
  rewrite Hlen.
  split; [|split].
  - intros H. apply negb_false_iff in H. rewrite H.
    cbn [number_integer inject_Z Qnum Qden]. rewrite Z.mod_1_r, Z.div_1_r. cbn [Z.eqb].
    apply Z.leb_le in Hidx. rewrite Hidx. reflexivity.
  - intros H. apply negb_true_iff in H. rewrite H. reflexivity.
  - intros loading H. apply orb_false_iff in H as [_ H]. apply negb_false_iff in H.
    intros E. rewrite E in H. discriminate H.
Qed.

(** ** The further properties at concrete requests *)

Lemma POST_latency_witness :
  exists query candidates selectedIndex place warnings latencyMs,
    res_body (Demo.response (POST Demo.req_second Demo.env_two st0)) = JsonLookup query candidates selectedIndex place warnings latencyMs /\
    (candidates = [] -> latencyMs = None) /\
    (candidates <> [] ->
       latencyMs = Some (clock Demo.env_two (S (S (clock_reads st0))) - clock Demo.env_two (S (clock_reads st0))) /\
       clock_reads (snd (POST Demo.req_second Demo.env_two st0)) = S (S (S (clock_reads st0))) /\
       (monotone (clock Demo.env_two) -> exists d, latencyMs = Some d /\ 0 <= d)).
Proof.
  apply (POST_latency Demo.req_second Demo.env_two st0 (snd (POST Demo.req_second Demo.env_two st0))).
  - vm_compute. reflexivity.
  - vm_compute. reflexivity.
Defined.

Lemma POST_candidates_follow_results_witness :
  exists query candidates selectedIndex place warnings latencyMs,
    res_body (Demo.response (POST Demo.req_second Demo.env_two st0)) = JsonLookup query candidates selectedIndex place warnings latencyMs /\
    forall geoRes geoData results,
      network Demo.env_two (length (calls st0)) (GeocodeCall query (GOOGLE_KEY Demo.env_two)) = Normal geoRes ->
      json geoRes = Normal geoData ->
      get_prop geoData "results" = Normal (VArr results) ->
      Forall2 (fun r c => toCandidate r = Normal c) results candidates.
Proof.
  apply (POST_candidates_follow_results Demo.req_second Demo.env_two st0 (snd (POST Demo.req_second Demo.env_two st0))).
  - vm_compute. reflexivity.
  - vm_compute. reflexivity.
Defined.

Lemma POST_warnings_shape_witness :
  exists query candidates selectedIndex place warnings latencyMs,
    res_body (Demo.response (POST Demo.req_second Demo.env_two st0)) = JsonLookup query candidates selectedIndex place warnings latencyMs /\
    (1 <= length warnings <= 2)%nat /\
    (candidates = [] -> warnings = ["No match found."]) /\
    (place <> VNull ->
       last warnings =
         Some "Places details returned from Places API (New); attribute availability varies by place.").
Proof.
  apply (POST_warnings_shape Demo.req_second Demo.env_two st0 (snd (POST Demo.req_second Demo.env_two st0))).
  - vm_compute. reflexivity.
  - vm_compute. reflexivity.
Defined.

Lemma POST_query_is_trimmed_address_witness :
  exists props a query candidates selectedIndex place warnings latencyMs,
    req_json Demo.req_second = Normal (VObj props) /\
    assoc "address" props = VStr a /\
    res_body (Demo.response (POST Demo.req_second Demo.env_two st0)) = JsonLookup query candidates selectedIndex place warnings latencyMs /\
    query = trim a /\ query <> "".
Proof.
  apply (POST_query_is_trimmed_address Demo.req_second Demo.env_two st0 (snd (POST Demo.req_second Demo.env_two st0))).
  - vm_compute. reflexivity.
  - vm_compute. reflexivity.
Defined.

Lemma selectedCandidate_of_answer_witness :
  exists data,
    LookupResponse_of (res_body (Demo.response (POST Demo.req_second Demo.env_two st0))) = Some data /\
    (selectedCandidate (Some data) = None <-> lr_candidates data = []) /\
    (lr_candidates data <> [] ->
       exists chosen,
         selectedCandidate (Some data) = Some chosen /\
         lr_candidates data !! Z.to_nat (lr_selectedIndex data) = Some chosen /\
         (lr_place data <> VNull -> truthy (place_id chosen) = true)).
Proof.
  apply (selectedCandidate_of_answer Demo.req_second Demo.env_two st0 (snd (POST Demo.req_second Demo.env_two st0))).
  - vm_compute. reflexivity.
  - vm_compute. reflexivity.
Defined.

Lemma POST_status_codes_witness :
  res_status (Demo.response (POST Demo.req_second Demo.env_two st0)) = 200 \/ res_status (Demo.response (POST Demo.req_second Demo.env_two st0)) = 400 \/ res_status (Demo.response (POST Demo.req_second Demo.env_two st0)) = 429 \/
  res_status (Demo.response (POST Demo.req_second Demo.env_two st0)) = 500 \/ res_status (Demo.response (POST Demo.req_second Demo.env_two st0)) = 502.
Proof.
  apply (POST_status_codes Demo.req_second Demo.env_two st0 (snd (POST Demo.req_second Demo.env_two st0))).
  vm_compute. reflexivity.
Defined.

Lemma POST_outbound_calls_witness :
  buckets (snd (POST Demo.req_second Demo.env_two st0)) = buckets (after_gate Demo.req_second Demo.env_two st0) /\
  (calls (snd (POST Demo.req_second Demo.env_two st0)) = calls st0 \/
   exists body address selectedIndex,
     req_json Demo.req_second = Normal body /\
     BodySchema_safeParse body = Some (address, selectedIndex) /\
     (calls (snd (POST Demo.req_second Demo.env_two st0)) = calls st0 ++ [GeocodeCall address (GOOGLE_KEY Demo.env_two)] \/
      exists placeId,
        truthy placeId = true /\
        calls (snd (POST Demo.req_second Demo.env_two st0)) = calls st0 ++ [GeocodeCall address (GOOGLE_KEY Demo.env_two);
                                 PlaceDetailsCall placeId (GOOGLE_KEY Demo.env_two)
                                   PLACE_FIELD_MASK])).
Proof.
  apply (POST_outbound_calls Demo.req_second Demo.env_two st0 (snd (POST Demo.req_second Demo.env_two st0)) (fst (POST Demo.req_second Demo.env_two st0))).
  vm_compute. reflexivity.
Defined.

Lemma GET_status_codes_witness :
  res_status (Demo.response (GET Demo.req_photo Demo.env_photo_json st0)) = 200 \/ res_status (Demo.response (GET Demo.req_photo Demo.env_photo_json st0)) = 400 \/ res_status (Demo.response (GET Demo.req_photo Demo.env_photo_json st0)) = 429 \/
  res_status (Demo.response (GET Demo.req_photo Demo.env_photo_json st0)) = 500 \/ res_status (Demo.response (GET Demo.req_photo Demo.env_photo_json st0)) = 502.
Proof.
  apply (GET_status_codes Demo.req_photo Demo.env_photo_json st0 (snd (GET Demo.req_photo Demo.env_photo_json st0))).
  vm_compute. reflexivity.
Defined.

Lemma GET_outbound_calls_witness :
  buckets (snd (GET Demo.req_photo Demo.env_photo_json st0)) = buckets (after_gate Demo.req_photo Demo.env_photo_json st0) /\
  (calls (snd (GET Demo.req_photo Demo.env_photo_json st0)) = calls st0 \/
   exists photoName,
     photoName_param (searchParams Demo.req_photo) = Some photoName /\
     startsWith photoName "places/" = true /\
     (calls (snd (GET Demo.req_photo Demo.env_photo_json st0)) = calls st0 ++ [photo_call Demo.req_photo photoName (GOOGLE_KEY Demo.env_photo_json)] \/
      exists url,
        calls (snd (GET Demo.req_photo Demo.env_photo_json st0)) = calls st0 ++ [photo_call Demo.req_photo photoName (GOOGLE_KEY Demo.env_photo_json); UrlCall url])).
Proof.
  apply (GET_outbound_calls Demo.req_photo Demo.env_photo_json st0 (snd (GET Demo.req_photo Demo.env_photo_json st0)) (fst (GET Demo.req_photo Demo.env_photo_json st0))).
  vm_compute. reflexivity.
Defined.

Lemma GET_success_has_content_type_witness :
  exists n call answer bytes,
    calls (snd (GET Demo.req_photo Demo.env_photo_json st0)) !! n = Some call /\
    length (calls (snd (GET Demo.req_photo Demo.env_photo_json st0))) = S n /\
    network Demo.env_photo_json n call = Normal answer /\
    arrayBuffer answer = Normal bytes /\
    res_body (Demo.response (GET Demo.req_photo Demo.env_photo_json st0)) = BufferBody bytes /\
    header_get (res_headers (Demo.response (GET Demo.req_photo Demo.env_photo_json st0))) "content-type" =
      Some (default "image/jpeg" (content_type answer)) /\
    (forall contentType, content_type answer = Some contentType ->
       header_get (res_headers (Demo.response (GET Demo.req_photo Demo.env_photo_json st0))) "content-type" =
         Some contentType) /\
    (content_type answer = None ->
       header_get (res_headers (Demo.response (GET Demo.req_photo Demo.env_photo_json st0))) "content-type" =
         Some "image/jpeg").
Proof.
  apply (GET_success_has_content_type Demo.req_photo Demo.env_photo_json st0
           (snd (GET Demo.req_photo Demo.env_photo_json st0))).
  - vm_compute. reflexivity.
  - vm_compute. reflexivity.
Defined.

Lemma getIp_first_forwarded_entry_witness :
  getIp Demo.req_second = trim "203.0.113.7".
Proof.
  apply (getIp_first_forwarded_entry Demo.req_second "203.0.113.7, 10.0.0.1" "203.0.113.7"
           " 10.0.0.1").
  - reflexivity.
  - vm_compute. reflexivity.
  - right. reflexivity.
Defined.

Lemma rateLimit_unknown_bucket_shared_witness :
  getIp Demo.anonymous = "unknown" /\ getIp Demo.anonymous = "unknown" /\
  exists arr,
    buckets (snd (rateLimit Demo.anonymous Demo.env_two (snd (rateLimit Demo.anonymous Demo.env_two st0)))) !! "unknown" = Some arr /\
    clock Demo.env_two (clock_reads st0) ∈ arr /\ clock Demo.env_two (S (clock_reads st0)) ∈ arr.
Proof.
  apply (rateLimit_unknown_bucket_shared Demo.anonymous Demo.anonymous Demo.env_two st0).
  - reflexivity.
  - reflexivity.
  - reflexivity.
  - reflexivity.
  - vm_compute. reflexivity.
Defined.

Lemma rateLimit_first_thirty_per_window_witness :
  fst (rateLimit_times Demo.req_plain 40%nat Demo.env_two st0) =
    Normal (if (30 <=? 40%nat)%nat
            then Some "Rate limit exceeded. Please try again shortly."
            else None).
Proof.
  apply (rateLimit_first_thirty_per_window Demo.req_plain Demo.env_two st0 40).
  - intros i j Hij. cbn. lia.
  - vm_compute. reflexivity.
  - vm_compute. reflexivity.
Defined.

Lemma BodySchema_accepts_normalized_witness :
  "a" <> "" /\ trim "a" = "a" /\
  (forall i, (Some 7) = Some i -> 0 <= i) /\
  BodySchema_safeParse
    (VObj [("address", VStr "a");
           ("selectedIndex",
            match (Some 7) with
            | Some i => VNum (Finite (i # 1))
            | None => VUndefined
            end)]) = Some ("a", (Some 7)).
Proof.
  apply (BodySchema_accepts_normalized (Demo.body_of " a " (VNum (Finite (14 # 2))))).
  vm_compute. reflexivity.
Defined.

Lemma handlers_reject_with_429_witness :
  POST Demo.req_plain Demo.env_two Demo.st_full =
    (Normal {| res_status := 429; res_headers := [];
               res_body := JsonError "Rate limit exceeded. Please try again shortly." |},
     after_gate Demo.req_plain Demo.env_two Demo.st_full) /\
  GET Demo.req_plain Demo.env_two Demo.st_full =
    (Normal {| res_status := 429; res_headers := [];
               res_body := TextBody "Rate limit exceeded. Please try again shortly." |},
     after_gate Demo.req_plain Demo.env_two Demo.st_full) /\
  calls (after_gate Demo.req_plain Demo.env_two Demo.st_full) = calls Demo.st_full /\
  clock_reads (after_gate Demo.req_plain Demo.env_two Demo.st_full) = S (clock_reads Demo.st_full).
Proof.
  apply (handlers_reject_with_429 Demo.req_plain Demo.env_two Demo.st_full).
  vm_compute. discriminate.
Defined.

Lemma handlers_unconfigured_500_witness :
  POST Demo.req_plain Demo.env_nokey st0 =
    (Normal {| res_status := 500; res_headers := [];
               res_body := JsonError "Server is not configured with GOOGLE_MAPS_API_KEY" |},
     after_gate Demo.req_plain Demo.env_nokey st0) /\
  GET Demo.req_plain Demo.env_nokey st0 =
    (Normal {| res_status := 500; res_headers := [];
               res_body := TextBody "Server not configured" |},
     after_gate Demo.req_plain Demo.env_nokey st0) /\
  calls (after_gate Demo.req_plain Demo.env_nokey st0) = calls st0 /\
  clock Demo.env_nokey (clock_reads st0) ∈
    default [] (buckets (after_gate Demo.req_plain Demo.env_nokey st0) !! getIp Demo.req_plain).
Proof.
  apply (handlers_unconfigured_500 Demo.req_plain Demo.env_nokey st0).
  - vm_compute. reflexivity.
  - vm_compute. reflexivity.
Defined.

Lemma POST_invalid_body_400_witness :
  exists res,
    POST Demo.req_not_json Demo.env_two st0 = (Normal res, after_gate Demo.req_not_json Demo.env_two st0) /\
    res_status res = 400 /\
    calls (after_gate Demo.req_not_json Demo.env_two st0) = calls st0 /\
    (forall e, req_json Demo.req_not_json = Throw e -> res_body res = JsonError "Invalid JSON body") /\
    (forall body, req_json Demo.req_not_json = Normal body -> res_body res = JsonInvalid).
Proof.
  apply (POST_invalid_body_400 Demo.req_not_json Demo.env_two st0).
  - vm_compute. reflexivity.
  - vm_compute. reflexivity.
  - intros body H. vm_compute in H. discriminate H.
Defined.

Lemma POST_geocoding_failed_502_witness :
  exists st',
    POST Demo.req_plain Demo.env_geocode_503 st0 =
      (Normal {| res_status := 502; res_headers := [];
                 res_body := JsonError ("Geocoding failed with status "
                                        ++ decimal (status (Demo.error_response 503 "unavailable")))%string |},
       st') /\
    calls st' = calls st0 ++ [GeocodeCall Demo.plain_address (GOOGLE_KEY Demo.env_geocode_503)].
Proof.
  apply (POST_geocoding_failed_502 Demo.req_plain Demo.env_geocode_503 st0 Demo.plain_body
           Demo.plain_address None (Demo.error_response 503 "unavailable"));
    vm_compute; reflexivity.
Defined.

Lemma POST_geocoding_exceptions_propagate_witness :
  let st' := after_call (GeocodeCall Demo.plain_address (GOOGLE_KEY Demo.env_offline))
               (after_clock (after_gate Demo.req_plain Demo.env_offline st0)) in
  let answer := network Demo.env_offline (length (calls st0)) (GeocodeCall Demo.plain_address (GOOGLE_KEY Demo.env_offline)) in
  (forall e, answer = Throw e -> POST Demo.req_plain Demo.env_offline st0 = (Throw e, st')) /\
  (forall geoRes e, answer = Normal geoRes -> ok geoRes = true -> json geoRes = Throw e ->
     POST Demo.req_plain Demo.env_offline st0 = (Throw e, st')) /\
  (forall geoRes, answer = Normal geoRes -> ok geoRes = true -> json geoRes = Normal VNull ->
     exists e, POST Demo.req_plain Demo.env_offline st0 = (Throw e, st')) /\
  (forall geoRes geoData before after,
     answer = Normal geoRes -> ok geoRes = true -> json geoRes = Normal geoData ->
     get_prop geoData "results" = Normal (VArr (before ++ VNull :: after)) ->
     Forall is_record before ->
     exists e, POST Demo.req_plain Demo.env_offline st0 = (Throw e, st')).
Proof.
  apply (POST_geocoding_exceptions_propagate Demo.req_plain Demo.env_offline st0
           Demo.plain_body Demo.plain_address None);
    vm_compute; reflexivity.
Defined.

Lemma POST_without_place_id_witness :
  exists st',
    POST Demo.req_plain Demo.env_no_place_id st0 =
      (Normal {| res_status := 200; res_headers := [];
                 res_body :=
                   JsonLookup Demo.plain_address [Demo.candidate_bare] 0 VNull
                     ([] ++ ["No place_id from geocoding; place details not available."])
                     (Some (clock Demo.env_no_place_id (clock_reads (snd (geocode Demo.req_plain Demo.env_no_place_id st0))) - 1700000000007)) |},
       st') /\
    calls st' = calls st0 ++ [GeocodeCall Demo.plain_address (GOOGLE_KEY Demo.env_no_place_id)].
Proof.
  apply (POST_without_place_id Demo.req_plain Demo.env_no_place_id st0
           (snd (geocode Demo.req_plain Demo.env_no_place_id st0))
           Demo.plain_address 1700000000007 [] [Demo.candidate_bare] 0 Demo.candidate_bare);
    vm_compute; reflexivity.
Defined.





Lemma GET_upstream_failure_502_witness :
  exists st',
    GET Demo.req_photo Demo.env_photo_404 st0 = (Normal (NextResponse_text "Failed to fetch photo" 502), st') /\
    calls st' = calls st0 ++ [photo_call Demo.req_photo "places/X/photos/abc" (GOOGLE_KEY Demo.env_photo_404)].
Proof.
  apply (GET_upstream_failure_502 Demo.req_photo Demo.env_photo_404 st0 "places/X/photos/abc"
           (Demo.error_response 404 ""));
    try (vm_compute; reflexivity).
  right. cbn. lia.
Defined.

Lemma GET_photoName_required_witness :
  GET Demo.req_photo_hidden Demo.env_photo_direct st0 =
    (Normal {| res_status := 400; res_headers := [];
               res_body := TextBody "photoName required" |},
     after_gate Demo.req_photo_hidden Demo.env_photo_direct st0) /\
  calls (after_gate Demo.req_photo_hidden Demo.env_photo_direct st0) = calls st0.
Proof.
  apply (GET_photoName_required Demo.req_photo_hidden Demo.env_photo_direct st0).
  - vm_compute. reflexivity.
  - vm_compute. reflexivity.
  - left. reflexivity.
Defined.

Lemma submit_enabled_iff_body_accepted_witness :
  (submit_disabled false " 1600 Amphitheatre Parkway " = false ->
     BodySchema_safeParse (submit_body " 1600 Amphitheatre Parkway " (Some 1) 0) =
       Some (trim " 1600 Amphitheatre Parkway ", Some (default 0 (Some 1)))) /\
  (submit_disabled false " 1600 Amphitheatre Parkway " = true ->
     BodySchema_safeParse (submit_body " 1600 Amphitheatre Parkway " (Some 1) 0) = None) /\
  (forall loading, submit_disabled loading " 1600 Amphitheatre Parkway " = false -> trim " 1600 Amphitheatre Parkway " <> "").
Proof.
  apply (submit_enabled_iff_body_accepted " 1600 Amphitheatre Parkway " (Some 1) 0).
  cbn. lia.
Defined.

(** ** The registry over the life of the process *)

(** X28. The rate-limiter registry only grows: after a run of either
    handler, whatever its outcome, every client that had an entry still
    has one, untouched unless it is the requester, and the requester has
    an entry that ends with the timestamp of this request. *)
Theorem registry_never_forgets (req : NextRequest) (env : Env) (st st' : State)
    (c : completion NextResponse) :
  POST req env st = (c, st') \/ GET req env st = (c, st') ->
  (forall client, is_Some (buckets st !! client) -> is_Some (buckets st' !! client)) /\
  (forall client, client <> getIp req -> buckets st' !! client = buckets st !! client) /\
  exists kept,
    buckets st' !! getIp req = Some (kept ++ [clock env (clock_reads st)]).
Proof.
  intros H.
  assert (buckets st' = buckets (after_gate req env st)) as ->.
  { destruct H as [H|H].
    - apply POST_outcome in H as [Hb _]. exact Hb.
    - apply GET_outcome in H as [Hb _]. exact Hb. }
  cbn [after_gate buckets]. split; [|split].
  - intros client Hsome. destruct (decide (client = getIp req)) as [->|Hne].
    + rewrite lookup_insert_eq. eexists. reflexivity.
    + rewrite lookup_insert_ne by congruence. exact Hsome.
  - intros client Hne. apply lookup_insert_ne. congruence.
  - eexists. rewrite lookup_insert_eq. reflexivity.
Qed.

Lemma registry_never_forgets_witness :
  (forall client, is_Some (buckets Demo.st_full !! client) ->
                  is_Some (buckets (snd (POST Demo.req_plain Demo.env_two Demo.st_full))
                             !! client)) /\
  (forall client, client <> getIp Demo.req_plain ->
     buckets (snd (POST Demo.req_plain Demo.env_two Demo.st_full)) !! client =
     buckets Demo.st_full !! client) /\
  exists kept,
    buckets (snd (POST Demo.req_plain Demo.env_two Demo.st_full)) !! getIp Demo.req_plain =
      Some (kept ++ [clock Demo.env_two (clock_reads Demo.st_full)]).
Proof.
  apply (registry_never_forgets Demo.req_plain Demo.env_two Demo.st_full
           (snd (POST Demo.req_plain Demo.env_two Demo.st_full))
           (fst (POST Demo.req_plain Demo.env_two Demo.st_full))).
  left. vm_compute. reflexivity.
Defined.
